(** * run_translation.py: the remote-backed output and checkpoint lifecycle

    A shallow embedding of the storage-related parts of
    [src/run_translation.py]: path resolution ([is_absolute],
    [make_absolute], [get_direct_access]), workspace staging, checkpoint
    resume detection, checkpoint pruning and the finalisation block of
    [main].

    Python [str] values are modelled as lists of 8-bit characters.  The
    operating-system layer is POSIX ([os.path] is [posixpath]). *)

From Stdlib Require Import List Ascii String ZArith NArith Bool Lia.
Import ListNotations.

Local Open Scope Z_scope.

(** ** Python strings *)

Definition str := list ascii.

(** A string literal of the source. *)
Definition lit (s : string) : str := list_ascii_of_string s.

Module Py.

Definition char_eqb (a b : ascii) : bool := Ascii.eqb a b.

Fixpoint str_eqb (s t : str) : bool :=
  match s, t with
  | [], [] => true
  | a :: s', b :: t' => char_eqb a b && str_eqb s' t'
  | _, _ => false
  end.

(** [s.startswith(p)] *)
Fixpoint startswith (s p : str) {struct p} : bool :=
  match p, s with
  | [], _ => true
  | b :: p', a :: s' => char_eqb a b && startswith s' p'
  | _ :: _, [] => false
  end.

(** [s.endswith(p)] *)
Definition endswith (s p : str) : bool := startswith (rev s) (rev p).

Definition len (s : str) : Z := Z.of_nat (List.length s).

(** [s[:k]], with Python's treatment of a negative bound. *)
Definition slice_to (s : str) (k : Z) : str :=
  if k <? 0 then firstn (Z.to_nat (len s + k)) s else firstn (Z.to_nat k) s.

(** [s[k:]], with Python's treatment of a negative bound. *)
Definition slice_from (s : str) (k : Z) : str :=
  if k <? 0 then skipn (Z.to_nat (len s + k)) s else skipn (Z.to_nat k) s.

(** [s.rfind(c)] for a one-character needle: the highest index of [c],
    or [-1]. *)
Fixpoint rfind_from (c : ascii) (s : str) (i : Z) : Z :=
  match s with
  | [] => -1
  | a :: s' =>
      let r := rfind_from c s' (i + 1) in
      if 0 <=? r then r else if char_eqb a c then i else -1
  end.

Definition rfind (s : str) (c : ascii) : Z := rfind_from c s 0.

(** [s.find(c)] for a one-character needle. *)
Fixpoint find_from (c : ascii) (s : str) (i : Z) : Z :=
  match s with
  | [] => -1
  | a :: s' => if char_eqb a c then i else find_from c s' (i + 1)
  end.

Definition find (s : str) (c : ascii) : Z := find_from c s 0.

(** [s.split(c)] for a one-character separator. *)
Fixpoint split (c : ascii) (s : str) : list str :=
  match s with
  | [] => [[]]
  | a :: s' =>
      if char_eqb a c then [] :: split c s'
      else match split c s' with
           | [] => [[a]]
           | w :: ws => (a :: w) :: ws
           end
  end.

Definition is_digit (a : ascii) : bool :=
  let n := N_of_ascii a in (48 <=? n)%N && (n <=? 57)%N.

Definition is_alpha (a : ascii) : bool :=
  let n := N_of_ascii a in
  ((65 <=? n)%N && (n <=? 90)%N) || ((97 <=? n)%N && (n <=? 122)%N).

Definition lower_char (a : ascii) : ascii :=
  let n := N_of_ascii a in
  if (65 <=? n)%N && (n <=? 90)%N then ascii_of_N (n + 32) else a.

(** [int(s)] on a string of decimal digits. *)
Definition int_of_digits (s : str) : N :=
  fold_left (fun acc a => (10 * acc + (N_of_ascii a - 48))%N) s 0%N.

End Py.

(** ** [os.path] on POSIX *)

Module OsPath.

Definition sep : ascii := "/"%char.

(** [os.path.isabs(p)] *)
Definition isabs (p : str) : bool := Py.startswith p [sep].

(** [os.path.join(a, b)] *)
Definition join (a b : str) : str :=
  if Py.startswith b [sep] then b
  else match a with
       | [] => b
       | _ => if Py.endswith a [sep] then a ++ b else a ++ sep :: b
       end.

(** [head.rstrip("/")] *)
Definition rstrip_sep (s : str) : str :=
  rev ((fix drop (l : str) : str :=
          match l with
          | a :: l' => if Py.char_eqb a sep then drop l' else l
          | [] => []
          end) (rev s)).

(** [os.path.dirname(p)] *)
Definition dirname (p : str) : str :=
  let i := Py.rfind p sep + 1 in
  let head := Py.slice_to p i in
  if negb (Py.str_eqb head []) && negb (forallb (fun a => Py.char_eqb a sep) head)
  then rstrip_sep head else head.

End OsPath.

(** ** Libraries the script calls

  [urllib.parse.urlparse], ClearML's [StorageHelper] and [pathlib] are
  not part of the script; the development is parametric in what they
  return. *)

Record ParseResult := {
scheme : str;
netloc : str;
path : str
}.

Class Libs := {
(** [urllib.parse.urlparse(url)] *)
urlparse : str -> ParseResult;
(** [StorageHelper.get(url).base_url] *)
helper_base_url : str -> str;
(** [StorageHelper.conform_url(url)] *)
helper_conform_url : str -> str;
(** [Path(p).as_posix()] *)
as_posix : str -> str
}.

(** ** Path resolver *)

Section Resolver.

Context {L : Libs}.

(** [get_direct_access(url)]: the local path of a [file://] location,
    [None] for a remote one. *)
Definition get_direct_access (url : str) : option str :=
  if Py.str_eqb (helper_base_url url) (lit "file://") then
    let full_url := helper_conform_url url in
    Some (as_posix (Py.slice_from full_url 7))
  else None.

(** [is_absolute(path)] *)
Definition is_absolute (p : str) : bool :=
  negb (Py.str_eqb (scheme (urlparse p)) []) || OsPath.isabs p.

(** The second argument of [make_absolute]: a [str] or a list of them. *)
Inductive target :=
| One (p : str)
| Many (ps : list str).

(** [make_absolute(config_url, path)] *)
Definition make_absolute (config_url : option str) (p : target) : target :=
  match config_url with
  | None => p
  | Some config_url =>
      match get_direct_access config_url with
      | None =>
          let index := Py.rfind config_url OsPath.sep in
          let config_dir_url := Py.slice_to config_url (index + 1) in
          match p with
          | One p => One (if is_absolute p then p else config_dir_url ++ p)
          | Many ps =>
              Many (map (fun p => if is_absolute p then p else config_dir_url ++ p) ps)
          end
      | Some config_path =>
          let config_dir := OsPath.dirname config_path in
          match p with
          | One p => One (if is_absolute p then p else OsPath.join config_dir p)
          | Many ps =>
              Many (map (fun p => if is_absolute p then p else OsPath.join config_dir p) ps)
          end
      end
  end.

(** Every string a resolved target holds is absolute. *)
Definition all_absolute (t : target) : bool :=
  match t with
  | One p => is_absolute p
  | Many ps => forallb is_absolute ps
  end.

End Resolver.

(** [make_absolute] on a single string, as [main] calls it for
    [training_args.output_dir]: a [str] argument yields a [str]. *)
Definition make_absolute_str {L : Libs} (config_url : option str) (p : str) : str :=
  match make_absolute config_url (One p) with
  | One u => u
  | Many _ => p
  end.

(** ** The local file system

    A tree of directories and regular files.  File contents play no part
    in the code under study and are left out; so are symbolic links. *)

#[warnings="-register-all"]
Inductive node :=
| File
| Dir (children : list (str * node)).

Definition is_dir_node (n : node) : bool :=
  match n with Dir _ => true | File => false end.

Definition is_file_node (n : node) : bool :=
  match n with File => true | Dir _ => false end.

(** The entry called [name] of a directory listing. *)
Fixpoint assoc (name : str) (ch : list (str * node)) : option node :=
  match ch with
  | [] => None
  | (n, c) :: ch' => if Py.str_eqb n name then Some c else assoc name ch'
  end.

(** The node a sequence of path components leads to. *)
Fixpoint lookup (p : list str) (n : node) : option node :=
  match p with
  | [] => Some n
  | c :: p' =>
      match n with
      | File => None
      | Dir ch =>
          match assoc c ch with
          | Some n' => lookup p' n'
          | None => None
          end
      end
  end.

(** Replace the entry called [name] of a listing by its image under [g]. *)
Fixpoint update (name : str) (g : node -> node) (ch : list (str * node))
  : list (str * node) :=
  match ch with
  | [] => []
  | (n, c) :: ch' =>
      if Py.str_eqb n name then (n, g c) :: ch' else (n, c) :: update name g ch'
  end.

(** Rewrite the listing of the directory at [p]. *)
Fixpoint alter (f : list (str * node) -> list (str * node)) (p : list str)
  (n : node) {struct p} : node :=
  match n with
  | File => File
  | Dir ch =>
      match p with
      | [] => Dir (f ch)
      | c :: p' => Dir (update c (alter f p') ch)
      end
  end.

(** A file name: not empty, not [.] or [..], and free of [/]. *)
Definition simple_name (n : str) : bool :=
  negb (Py.str_eqb n []) && negb (Py.str_eqb n (lit ".")) &&
  negb (Py.str_eqb n (lit "..")) &&
  forallb (fun a => negb (Py.char_eqb a OsPath.sep)) n.

Fixpoint mem (n : str) (l : list str) : bool :=
  match l with
  | [] => false
  | m :: l' => Py.str_eqb m n || mem n l'
  end.

Fixpoint nodup_names (l : list str) : bool :=
  match l with
  | [] => true
  | n :: l' => negb (mem n l') && nodup_names l'
  end.

(** A listing is well formed when its names are file names and distinct. *)
Definition wf_listing (ch : list (str * node)) : bool :=
  forallb simple_name (map fst ch) && nodup_names (map fst ch).

(** A file system is well formed when every directory listing in it is. *)
Fixpoint wf_node (n : node) : bool :=
  match n with
  | File => true
  | Dir ch =>
      wf_listing ch &&
      forallb (fun e => match e with (_, c) => wf_node c end) ch
  end.

(** The state of the machine the job runs on: the local file system, the
    working directory of the process, and the state [X] of everything
    outside the script (remote storage, model, trainer). *)
Record world (X : Type) := {
  fs : node;
  cwd : list str;
  ext : X
}.

Arguments fs {X} _.
Arguments cwd {X} _.
Arguments ext {X} _.

Definition set_fs {X} (w : world X) (n : node) : world X :=
  {| fs := n; cwd := cwd w; ext := ext w |}.

(** The components a path string denotes: empty components and [.] are
    skipped, a relative path starts from the working directory.  [..] is
    not interpreted and names no entry of a well-formed tree: a path
    with a [..] component names nothing here, whatever the operating
    system resolves it to (see [plain_path]). *)
Definition components (wd : list str) (s : str) : list str :=
  (if OsPath.isabs s then [] else wd) ++
  filter (fun c => negb (Py.str_eqb c [] || Py.str_eqb c (lit ".")))
         (Py.split OsPath.sep s).

(** [os.stat(s)]: the node at [s], if any.  The empty path names nothing. *)
Definition stat {X} (w : world X) (s : str) : option node :=
  match s with
  | [] => None
  | _ => lookup (components (cwd w) s) (fs w)
  end.

(** [os.path.isdir(s)] *)
Definition isdir {X} (w : world X) (s : str) : bool :=
  match stat w s with Some n => is_dir_node n | None => false end.

(** [os.path.isfile(s)] *)
Definition isfile {X} (w : world X) (s : str) : bool :=
  match stat w s with Some n => is_file_node n | None => false end.

(** A path none of whose components is [..].  On such a path the lookup
    above is the path resolution of the operating system; what is said
    of a path that names nothing is said of such paths only. *)
Definition plain_path (s : str) : bool :=
  negb (mem (lit "..") (Py.split OsPath.sep s)).

(** Python exceptions, as far as the script can see them. *)
Inductive exn :=
| ValueError (msg : str)
| FileNotFoundError
| NotADirectoryError
| FileExistsError
| OSError
| Raised (code : nat).

Inductive result (A : Type) :=
| Ok (a : A)
| Err (e : exn).

Arguments Ok {A} _.
Arguments Err {A} _.

(** [os.listdir(s)] *)
Definition listdir {X} (w : world X) (s : str) : result (list str) :=
  match stat w s with
  | Some (Dir ch) => Ok (map fst ch)
  | Some File => Err NotADirectoryError
  | None => Err FileNotFoundError
  end.

(** [shutil.rmtree(s)]: removes the directory [s] and all below it. *)
Definition rmtree {X} (s : str) (w : world X) : world X * result unit :=
  match stat w s with
  | Some (Dir _) =>
      match rev (components (cwd w) s) with
      | [] => (w, Err OSError)
      | n :: rp =>
          (set_fs w (alter (filter (fun e => negb (Py.str_eqb (fst e) n)))
                           (rev rp) (fs w)),
           Ok tt)
      end
  | Some File => (w, Err NotADirectoryError)
  | None => (w, Err FileNotFoundError)
  end.

(** [os.mkdir(s)] *)
Definition mkdir {X} (s : str) (w : world X) : world X * result unit :=
  match stat w s with
  | Some _ => (w, Err FileExistsError)
  | None =>
      match s, rev (components (cwd w) s) with
      | [], _ => (w, Err FileNotFoundError)
      | _, [] => (w, Err FileExistsError)
      | _, n :: rp =>
          match lookup (rev rp) (fs w) with
          | Some (Dir _) =>
              (set_fs w (alter (fun ch => ch ++ [(n, Dir [])]) (rev rp) (fs w)),
               Ok tt)
          | Some File => (w, Err NotADirectoryError)
          | None => (w, Err FileNotFoundError)
          end
      end
  end.

(** ** Checkpoint names *)

(** [transformers.trainer_utils.PREFIX_CHECKPOINT_DIR] *)
Definition PREFIX_CHECKPOINT_DIR : str := lit "checkpoint".

Fixpoint take_digits (s : str) : str :=
  match s with
  | a :: s' => if Py.is_digit a then a :: take_digits s' else []
  | [] => []
  end.

Fixpoint drop_digits (s : str) : str :=
  match s with
  | a :: s' => if Py.is_digit a then drop_digits s' else s
  | [] => []
  end.

(** Modelled from the spec: [_re_checkpoint.search(name)] of the
    [transformers] library, which is imported by the script and not part
    of it.  The pattern is the checkpoint naming convention
    [<prefix>-<integer>], compiled as [^checkpoint\-(\d+)$]; the result is
    the digit group of a match.  As in Python's [re], [$] also matches
    before a final newline. *)
Definition re_checkpoint (name : str) : option str :=
  let pre := PREFIX_CHECKPOINT_DIR ++ lit "-" in
  if Py.startswith name pre then
    let rest := skipn (List.length pre) name in
    let ds := take_digits rest in
    let tl := drop_digits rest in
    match ds with
    | [] => None
    | _ => if Py.str_eqb tl [] || Py.str_eqb tl ["010"%char] then Some ds else None
    end
  else None.

Definition matches_checkpoint (name : str) : bool :=
  match re_checkpoint name with Some _ => true | None => false end.

(** The step number of a checkpoint name: [int(_re_checkpoint.search(x).groups()[0])]. *)
Definition step_of (name : str) : N :=
  match re_checkpoint name with
  | Some ds => Py.int_of_digits ds
  | None => 0%N
  end.

(** Python's [max(x :: l, key=key)]: the first element with the largest key. *)
Fixpoint py_max {A} (key : A -> N) (x : A) (l : list A) : A :=
  match l with
  | [] => x
  | y :: l' => if (key x <? key y)%N then py_max key y l' else py_max key x l'
  end.

(** Modelled from the spec: [get_last_checkpoint(folder)] of the
    [transformers] library, which is imported by the script and not part
    of it: among the immediate children of [folder] that are directories
    and whose names follow the checkpoint naming convention, the one with
    the highest step number, joined to [folder]; [None] when there is
    none. *)
Definition get_last_checkpoint {X} (w : world X) (folder : str) : result (option str) :=
  match listdir w folder with
  | Err e => Err e
  | Ok content =>
      let checkpoints :=
        filter (fun p => matches_checkpoint p && isdir w (OsPath.join folder p)) content in
      match checkpoints with
      | [] => Ok None
      | c :: cs => Ok (Some (OsPath.join folder (py_max step_of c cs)))
      end
  end.

(** [Path(d).glob(prefix + "*")]: the children of [d] whose names start
    with [prefix], as paths below [d]; nothing when [d] is no directory.
    [Path("")] is the working directory. *)
Definition path_glob_prefix {X} (w : world X) (d : str) (prefix : str) : list str :=
  let d' := match d with [] => lit "." | _ => d end in
  match listdir w d' with
  | Ok names => map (OsPath.join d) (filter (fun n => Py.startswith n prefix) names)
  | Err _ => []
  end.

(** ** Running the script: state, exceptions and the calls it makes *)

(** The calls [main] makes to its collaborators (remote storage and the
    training library), in the order they are made. *)
Inductive event :=
| EDownload (url dir : str)
| ESetup
| ETrain (resume_from_checkpoint : option str)
| EEvaluate
| EPredict
| EFinish
| EList (url : str)
| EDelete (base_url path : str)
| EUpload (dir url : str).

Record state (X : Type) := {
  now : world X;
  trace : list event
}.

Arguments now {X} _.
Arguments trace {X} _.

(** A computation that reads and updates the state and either returns a
    value or raises; the state reached survives a raise. *)
Definition M (X A : Type) : Type := state X -> state X * result A.

Definition ret {X A} (a : A) : M X A := fun s => (s, Ok a).

Definition raise {X A} (e : exn) : M X A := fun s => (s, Err e).

Definition bind {X A B} (m : M X A) (k : A -> M X B) : M X B :=
  fun s =>
    match m s with
    | (s', Ok a) => k a s'
    | (s', Err e) => (s', Err e)
    end.

Notation "x <- m ;; k" := (bind m (fun x => k))
  (at level 61, m at next level, right associativity).
Notation "m ;;; k" := (bind m (fun _ => k))
  (at level 61, right associativity).

(** An operation on the machine that [main] performs itself. *)
Definition local {X A} (op : world X -> world X * result A) : M X A :=
  fun s =>
    let (w, r) := op (now s) in
    ({| now := w; trace := trace s |}, r).

(** A call to a collaborator: it is recorded, then it runs. *)
Definition call {X A} (ev : event) (op : world X -> world X * result A) : M X A :=
  fun s =>
    let (w, r) := op (now s) in
    ({| now := w; trace := trace s ++ [ev] |}, r).

(** Read the current state of the machine. *)
Definition observe {X A} (f : world X -> A) : M X A := fun s => (s, Ok (f (now s))).

(** Lift a result computed from the current state. *)
Definition attempt {X A} (f : world X -> result A) : M X A := fun s => (s, f (now s)).

Definition when {X} (b : bool) (m : M X unit) : M X unit :=
  if b then m else ret tt.

(** [for x in l: body(x)] *)
Fixpoint for_each {X A} (l : list A) (body : A -> M X unit) : M X unit :=
  match l with
  | [] => ret tt
  | x :: l' => body x ;;; for_each l' body
  end.

(** [try: body finally: fin].  The [finally] block runs however [body]
    ends; if it raises, its exception is the one that propagates. *)
Definition try_finally {X A} (body : M X A) (fin : M X unit) : M X A :=
  fun s =>
    match body s with
    | (s1, r) =>
        match fin s1 with
        | (s2, Ok _) => (s2, r)
        | (s2, Err e) => (s2, Err e)
        end
    end.

(** The arguments of a job that the code under study reads. *)
Record Args := {
  config_url : option str;
  output_dir : str;
  logging_dir : str;
  do_train : bool;
  do_eval : bool;
  do_predict : bool;
  overwrite_output_dir : bool;
  resume_from_checkpoint : option str;
  delete_checkpoints_at_end : bool
}.

Definition set_dirs (a : Args) (out log : str) : Args :=
  {| config_url := config_url a;
     output_dir := out;
     logging_dir := log;
     do_train := do_train a;
     do_eval := do_eval a;
     do_predict := do_predict a;
     overwrite_output_dir := overwrite_output_dir a;
     resume_from_checkpoint := resume_from_checkpoint a;
     delete_checkpoints_at_end := delete_checkpoints_at_end a |}.

(** What lies outside the script: [tempfile], ClearML's storage layer and
    the training library.  Each operation may change the machine and may
    raise. *)
Class Collaborators (X : Type) := {
  (** [tempfile.gettempdir()] *)
  gettempdir : str;
  (** the names [tempfile]'s random generator yields, at most [TMP_MAX] *)
  temp_names : list str;
  (** [StorageManager.download_folder(url, dir, overwrite=True)] *)
  download_folder : str -> str -> world X -> world X * result unit;
  (** [StorageManager.list(url, return_full_path=True)] and the iteration
      over what it returns *)
  storage_list : str -> world X -> world X * result (list str);
  (** [StorageHelper.get(base_url).delete(path)] *)
  helper_delete : str -> str -> world X -> world X * result unit;
  (** [StorageManager.upload_folder(dir, url)] *)
  upload_folder : str -> str -> world X -> world X * result unit;
  (** lines 467-766 of [main]: seed, datasets, model, tokenizer, trainer *)
  job_setup : Args -> world X -> world X * result unit;
  (** [trainer.train(resume_from_checkpoint=checkpoint)] and the saving of
      model, metrics and state that follows it *)
  trainer_train : Args -> option str -> world X -> world X * result unit;
  (** [trainer.evaluate(...)] and the saving of its metrics *)
  trainer_evaluate : Args -> world X -> world X * result unit;
  (** [trainer.predict(...)] and the writing of its outputs *)
  trainer_predict : Args -> world X -> world X * result unit;
  (** [trainer.push_to_hub] or [trainer.create_model_card] *)
  job_finish : Args -> world X -> world X * result unit
}.

(** ** The storage-related parts of [main] *)

Section Main.

Context {L : Libs} {X : Type} {C : Collaborators X}.

(** [tempfile.mkdtemp()]: the first candidate directory that can be
    created. *)
Fixpoint mkdtemp_from (names : list str) (w : world X) : world X * result str :=
  match names with
  | [] => (w, Err FileExistsError)
  | name :: rest =>
      let file := OsPath.join gettempdir (lit "tmp" ++ name) in
      match mkdir file w with
      | (w', Ok _) => (w', Ok file)
      | (_, Err FileExistsError) => mkdtemp_from rest w
      | (w', Err e) => (w', Err e)
      end
  end.

Definition mkdtemp : world X -> world X * result str := mkdtemp_from temp_names.

(** [delete_url(url)] *)
Definition delete_url (url : str) : M X unit :=
  let parsed := urlparse url in
  let base := scheme parsed ++ lit "://" ++ netloc parsed in
  call (EDelete base (path parsed)) (helper_delete base (path parsed)).

(** What workspace acquisition hands to the rest of [main]. *)
Record Workspace := {
  output_url : str;
  temp_dir : option str;
  training_args : Args
}.

(** Lines 440-452 of [main]: resolve the output location; when it has no
    direct local access, mirror it into a fresh temporary directory; point
    [logging_dir] and [output_dir] at the local workspace. *)
Definition acquire_workspace (a : Args) : M X Workspace :=
  let output_url := make_absolute_str (config_url a) (output_dir a) in
  r <- match get_direct_access output_url with
       | Some output_dir => ret (output_dir, None)
       | None =>
           temp_dir <- local mkdtemp ;;
           call (EDownload output_url temp_dir) (download_folder output_url temp_dir) ;;;
           let parsed := urlparse output_url in
           ret (OsPath.join temp_dir (Py.slice_from (path parsed) 1), Some temp_dir)
       end ;;
  let (local_dir, temp_dir) := r in
  let logging_dir' :=
    if Py.startswith (logging_dir a) (output_dir a)
    then local_dir ++ Py.slice_from (logging_dir a) (Py.len (output_dir a))
    else logging_dir a in
  ret {| output_url := output_url;
         temp_dir := temp_dir;
         training_args := set_dirs a local_dir logging_dir' |}.

Definition conflict_message (dir : str) : str :=
  lit "Output directory (" ++ dir ++
  lit ") already exists and is not empty. Use --overwrite_output_dir to overcome.".

(** Lines 454-465 of [main]: detect the last checkpoint, or raise when the
    directory holds files and no checkpoint. *)
Definition detect_last_checkpoint (a : Args) : M X (option str) :=
  is_dir <- observe (fun w => isdir w (output_dir a)) ;;
  if is_dir && do_train a && negb (overwrite_output_dir a) then
    last_checkpoint <- attempt (fun w => get_last_checkpoint w (output_dir a)) ;;
    match last_checkpoint with
    | None =>
        names <- attempt (fun w => listdir w (output_dir a)) ;;
        any_file <- observe (fun w => existsb (fun p => isfile w p) names) ;;
        if any_file then raise (ValueError (conflict_message (output_dir a)))
        else ret None
    | Some c => ret (Some c)
    end
  else ret None.

(** Lines 770-774 of [main]: the checkpoint handed to [trainer.train]. *)
Definition choose_checkpoint (a : Args) (last_checkpoint : option str) : option str :=
  match resume_from_checkpoint a with
  | Some c => Some c
  | None => last_checkpoint
  end.

(** Lines 788-792 of [main]: delete the checkpoint directories. *)
Definition delete_checkpoints (a : Args) : M X unit :=
  checkpoints <- observe (fun w =>
    filter (fun x => isdir w x)
           (path_glob_prefix w (output_dir a) (PREFIX_CHECKPOINT_DIR ++ lit "-"))) ;;
  for_each checkpoints (fun checkpoint => local (rmtree checkpoint)).

(** Lines 467-854 of [main]: the body of the job after resume detection. *)
Definition run_job (a : Args) (last_checkpoint : option str) : M X unit :=
  call ESetup (job_setup a) ;;;
  when (do_train a)
    (let checkpoint := choose_checkpoint a last_checkpoint in
     call (ETrain checkpoint) (trainer_train a checkpoint) ;;;
     when (delete_checkpoints_at_end a) (delete_checkpoints a)) ;;;
  when (do_eval a) (call EEvaluate (trainer_evaluate a)) ;;;
  when (do_predict a) (call EPredict (trainer_predict a)) ;;;
  call EFinish (job_finish a).

(** The test of line 859: what follows [output_url] in [url] starts with
    [/checkpoint-]. *)
Definition is_stale (ws : Workspace) (url : str) : bool :=
  Py.startswith (Py.slice_from url (Py.len (output_url ws)))
                (lit "/" ++ PREFIX_CHECKPOINT_DIR ++ lit "-").

(** Lines 857-860 of [main]: list the remote output location and delete
    the checkpoints found there. *)
Definition remote_prune (ws : Workspace) : M X unit :=
  urls <- call (EList (output_url ws)) (storage_list (output_url ws)) ;;
  for_each urls (fun url => when (is_stale ws url) (delete_url url)).

(** Lines 856-862 of [main]: the [finally] block. *)
Definition finalize (ws : Workspace) : M X unit :=
  match temp_dir ws with
  | None => ret tt
  | Some temp_dir =>
      remote_prune ws ;;;
      call (EUpload (output_dir (training_args ws)) (output_url ws))
           (upload_folder (output_dir (training_args ws)) (output_url ws)) ;;;
      local (rmtree temp_dir)
  end.

(** [main], from the detection of the output location on. *)
Definition main (a : Args) : M X unit :=
  ws <- acquire_workspace a ;;
  try_finally
    (last_checkpoint <- detect_last_checkpoint (training_args ws) ;;
     run_job (training_args ws) last_checkpoint)
    (finalize ws).

End Main.

(** The resume decision of the specification, read off the outcome of
    [detect_last_checkpoint]. *)
Inductive ResumeDecision :=
| FreshStart
| ResumeFrom (checkpoint : str)
| ConflictError
| OtherFailure (e : exn).

Definition decision_of (r : result (option str)) : ResumeDecision :=
  match r with
  | Ok None => FreshStart
  | Ok (Some c) => ResumeFrom c
  | Err (ValueError _) => ConflictError
  | Err e => OtherFailure e
  end.

Definition initial {X} (w : world X) : state X := {| now := w; trace := [] |}.

(** The resume decision taken for job [a] in state [s]: the workspace is
    [output_dir a], training is requested when [do_train a], overwriting
    is allowed when [overwrite_output_dir a]. *)
Definition resume_decision {X} (a : Args) (s : state X) : ResumeDecision :=
  decision_of (snd (detect_last_checkpoint a s)).

Definition is_dir_entry (o : option node) : bool :=
  match o with Some n => is_dir_node n | None => false end.

(** A checkpoint entry of directory [dir]: a child that is a directory and
    whose name follows the checkpoint naming convention. *)
Definition checkpoint_entry {X} (w : world X) (dir n : str) : Prop :=
  exists ch,
    stat w dir = Some (Dir ch) /\ In n (map fst ch) /\
    matches_checkpoint n = true /\ is_dir_entry (assoc n ch) = true.

(** The children of directory [dir]; none when [dir] is no directory. *)
Definition entries {X} (w : world X) (dir : str) : list (str * node) :=
  match stat w dir with
  | Some (Dir ch) => ch
  | _ => []
  end.

(** The entries that checkpoint deletion leaves in place: all but the
    directories whose names start with [checkpoint-]. *)
Definition prune_keeps (e : str * node) : bool :=
  negb (Py.startswith (fst e) (PREFIX_CHECKPOINT_DIR ++ lit "-") && is_dir_node (snd e)).

(** Pruning as the specification words it: of the entries of the
    workspace, exactly those whose names follow the checkpoint naming
    convention are deleted. *)
Definition prunes_exactly_checkpoints {X} (a : Args) (s : state X) : Prop :=
  let s' := fst (delete_checkpoints a s) in
  forall e, In e (entries (now s) (output_dir a)) ->
    (In e (entries (now s') (output_dir a)) <-> matches_checkpoint (fst e) = false).







(** Cleanup as the specification words it, for a job whose finalisation
    reaches the upload and whose upload raises: [main] raises the error of
    the upload, and the temporary directory is gone when it does. *)
Definition cleans_up_when_upload_fails {L : Libs} {X} {C : Collaborators X}
  (a : Args) (s : state X) : Prop :=
  forall ws s1 s2 s3 r tmp w4 e,
    acquire_workspace a s = (s1, Ok ws) ->
    temp_dir ws = Some tmp ->
    (last_checkpoint <- detect_last_checkpoint (training_args ws) ;;
     run_job (training_args ws) last_checkpoint) s1 = (s2, r) ->
    remote_prune ws s2 = (s3, Ok tt) ->
    upload_folder (output_dir (training_args ws)) (output_url ws) (now s3) = (w4, Err e) ->
    snd (main a s) = Err e /\ isdir (now (fst (main a s))) tmp = false.

(** ** Arguments of the data and how [main] uses them *)

Module DataArgs.

(** The exceptions of argument checking and dataset preparation. *)
Inductive error :=
| ValueError (msg : str)
| AssertionError (msg : str)
| IndexError
| KeyError (key : str)
| UnboundLocalError (name : str)
| External (code : nat).

Inductive outcome (A : Type) :=
| Done (a : A)
| Raise (e : error).

Arguments Done {A} _.
Arguments Raise {A} _.

Definition and_then {A B} (m : outcome A) (k : A -> outcome B) : outcome B :=
  match m with
  | Done a => k a
  | Raise e => Raise e
  end.

(** [get_extension(file)]: the part of the name after its last dot; of a
    list of names, the first decides. *)
Definition get_extension (file : target) : outcome str :=
  match file with
  | One f => Done (last (Py.split "."%char f) [])
  | Many [] => Raise IndexError
  | Many (f :: _) => Done (last (Py.split "."%char f) [])
  end.

(** The fields of [DataTrainingArguments] that the code under study
    reads. *)
Record DataTrainingArguments := {
  source_lang : option str;
  target_lang : option str;
  dataset_name : option str;
  train_file : option target;
  validation_file : option target;
  test_file : option target;
  max_target_length : option Z;
  val_max_target_length : option Z;
  pad_to_max_length : bool;
  ignore_pad_token_for_loss : bool;
  max_train_samples : option Z
}.

Definition set_val_max_target_length (d : DataTrainingArguments) (v : option Z)
  : DataTrainingArguments :=
  {| source_lang := source_lang d;
     target_lang := target_lang d;
     dataset_name := dataset_name d;
     train_file := train_file d;
     validation_file := validation_file d;
     test_file := test_file d;
     max_target_length := max_target_length d;
     val_max_target_length := v;
     pad_to_max_length := pad_to_max_length d;
     ignore_pad_token_for_loss := ignore_pad_token_for_loss d;
     max_train_samples := max_train_samples d |}.

Definition set_test_file (d : DataTrainingArguments) (f : option target)
  : DataTrainingArguments :=
  {| source_lang := source_lang d;
     target_lang := target_lang d;
     dataset_name := dataset_name d;
     train_file := train_file d;
     validation_file := validation_file d;
     test_file := f;
     max_target_length := max_target_length d;
     val_max_target_length := val_max_target_length d;
     pad_to_max_length := pad_to_max_length d;
     ignore_pad_token_for_loss := ignore_pad_token_for_loss d;
     max_train_samples := max_train_samples d |}.

Definition is_none {A} (o : option A) : bool :=
  match o with None => true | Some _ => false end.

Definition valid_extensions : list str := [lit "json"; lit "jsonl"; lit "txt"].

(** [assert get_extension(file) in valid_extensions, msg] for a file that
    is given. *)
Definition check_extension (file : option target) (msg : str) : outcome unit :=
  match file with
  | None => Done tt
  | Some f =>
      and_then (get_extension f) (fun extension =>
        if mem extension valid_extensions then Done tt
        else Raise (AssertionError msg))
  end.

(** [DataTrainingArguments.__post_init__] *)
Definition post_init (d : DataTrainingArguments) : outcome DataTrainingArguments :=
  if is_none (dataset_name d) && is_none (train_file d) && is_none (validation_file d)
  then Raise (ValueError (lit "Need either a dataset name or a training/validation file."))
  else if is_none (source_lang d) || is_none (target_lang d)
  then Raise (ValueError
                (lit "Need to specify the source language and the target language."))
  else
    and_then (check_extension (train_file d)
                (lit "`train_file` should be a jsonlines file or text files."))
      (fun _ =>
    and_then (check_extension (validation_file d)
                (lit "`validation_file` should be a jsonlines file or text files."))
      (fun _ =>
    Done (match val_max_target_length d with
          | None => set_val_max_target_length d (max_target_length d)
          | Some _ => d
          end))).

(** Lines 496-505 of [main]: the value of [extension] when the data files
    are given by name and their downloads succeed.  It is assigned once
    for each file that is given, in the order train, validation, test. *)
Definition data_extension (d : DataTrainingArguments) : outcome str :=
  let assign (file : option target) (extension : option str) : outcome (option str) :=
    match file with
    | None => Done extension
    | Some f => and_then (get_extension f) (fun e => Done (Some e))
    end in
  and_then (assign (train_file d) None) (fun e1 =>
  and_then (assign (validation_file d) e1) (fun e2 =>
  and_then (assign (test_file d) e2) (fun e3 =>
  match e3 with
  | Some extension => Done extension
  | None => Raise (UnboundLocalError (lit "extension"))
  end))).

(** Lines 796-800 of [main]: the [max_length] of evaluation and
    prediction. *)
Definition generation_length (generation_max_length : option Z)
  (d : DataTrainingArguments) : option Z :=
  match generation_max_length with
  | Some n => Some n
  | None => val_max_target_length d
  end.

(** Lines 366-369 of [main]: without any of [--do_train], [--do_eval],
    [--do_predict], all three are done. *)
Definition default_actions (do_train do_eval do_predict : bool) : bool * bool * bool :=
  if negb do_train && negb do_eval && negb do_predict then (true, true, true)
  else (do_train, do_eval, do_predict).

Inductive dataset_split := Train | Validation | Test.

Definition split_key (s : dataset_split) : str :=
  match s with
  | Train => lit "train"
  | Validation => lit "validation"
  | Test => lit "test"
  end.

Definition split_eqb (s t : dataset_split) : bool :=
  match s, t with
  | Train, Train | Validation, Validation | Test, Test => true
  | _, _ => false
  end.

(** [key in raw_datasets] *)
Definition has_split (raw_datasets : list dataset_split) (s : dataset_split) : bool :=
  existsb (split_eqb s) raw_datasets.

(** [raw_datasets[key]], as far as it can fail. *)
Definition get_split (raw_datasets : list dataset_split) (s : dataset_split)
  : outcome dataset_split :=
  if has_split raw_datasets s then Done s else Raise (KeyError (split_key s)).

(** A step of the libraries that may raise. *)
Definition library_step (failure : option nat) : outcome unit :=
  match failure with
  | None => Done tt
  | Some code => Raise (External code)
  end.

Definition require_split (action : bool) (raw_datasets : list dataset_split)
  (s : dataset_split) (msg : str) (tokenize : dataset_split -> option nat)
  : outcome (list dataset_split) :=
  if action then
    if negb (has_split raw_datasets s) then Raise (ValueError msg)
    else and_then (library_step (tokenize s)) (fun _ => Done [s])
  else Done [].

(** Lines 594-706 of [main]: the split whose columns are read, then, for
    each requested action, the check that its split exists and its
    tokenization.  [configure] stands for lines 604-653 and [tokenize]
    for the selection and mapping of a split.  The result lists the
    splits that were prepared; it is empty on the early return. *)
Definition prepare_datasets (do_train do_eval do_predict : bool)
  (raw_datasets : list dataset_split)
  (configure : option nat) (tokenize : dataset_split -> option nat)
  : outcome (list dataset_split) :=
  and_then
    (if do_train then and_then (get_split raw_datasets Train) (fun s => Done (Some s))
     else if do_eval then and_then (get_split raw_datasets Validation) (fun s => Done (Some s))
     else if do_predict then and_then (get_split raw_datasets Test) (fun s => Done (Some s))
     else Done None)
    (fun column_names =>
       match column_names with
       | None => Done []
       | Some _ =>
           and_then (library_step configure) (fun _ =>
           and_then (require_split do_train raw_datasets Train
                       (lit "--do_train requires a train dataset") tokenize) (fun l1 =>
           and_then (require_split do_eval raw_datasets Validation
                       (lit "--do_eval requires a validation dataset") tokenize) (fun l2 =>
           and_then (require_split do_predict raw_datasets Test
                       (lit "--do_predict requires a test dataset") tokenize) (fun l3 =>
           Done (l1 ++ l2 ++ l3)))))
       end).

(** [range(n)] *)
Definition py_range (n : Z) : list Z := map Z.of_nat (seq 0 (Z.to_nat n)).

(** [dataset.select(indices)] for indices from [0]: the rows at these
    positions, in this order. *)
Fixpoint select {A} (dataset : list A) (indices : list Z) : outcome (list A) :=
  match indices with
  | [] => Done []
  | i :: rest =>
      match (if i <? 0 then None else nth_error dataset (Z.to_nat i)) with
      | None => Raise IndexError
      | Some row => and_then (select dataset rest) (fun rows => Done (row :: rows))
      end
  end.

(** Lines 658-661 of [main] (and 676-679, 694-697): the dataset cut to
    the sample limit. *)
Definition limit_samples {A} (limit : option Z) (dataset : list A) : outcome (list A) :=
  match limit with
  | None => Done dataset
  | Some max_samples =>
      let max_samples := Z.min (Z.of_nat (List.length dataset)) max_samples in
      select dataset (py_range max_samples)
  end.

(** Lines 779-782 of [main] (and 806-807, 820-823): the number of samples
    written to the metrics, for a dataset of [n] rows. *)
Definition reported_samples (limit : option Z) (n : Z) : Z :=
  let max_samples := match limit with Some m => m | None => n end in
  Z.min max_samples n.

(** Lines 647-650 of [main]: the padding of the labels is replaced by
    [-100] when padding to the maximal length and ignoring it in the
    loss. *)
Definition preprocess_labels (d : DataTrainingArguments) (pad_token_id : Z)
  (labels : list (list Z)) : list (list Z) :=
  if pad_to_max_length d && ignore_pad_token_for_loss d
  then map (map (fun l => if negb (l =? pad_token_id) then l else -100)) labels
  else labels.

(** Lines 734-736 of [main]: [-100] in the labels is replaced by the
    padding before decoding. *)
Definition metric_labels (d : DataTrainingArguments) (pad_token_id : Z)
  (labels : list (list Z)) : list (list Z) :=
  if ignore_pad_token_for_loss d
  then map (map (fun l => if negb (l =? -100) then l else pad_token_id)) labels
  else labels.

(** Lines 471-473 of [main] (and 474-476): the language key of the
    translation examples.  [Lang] stands for the [iso639] library: the
    two-letter and three-letter codes of a language, if it knows it. *)
Definition language_key (Lang : str -> option (str * str)) (lang : str) : outcome str :=
  let code := hd [] (Py.split "_"%char lang) in
  match Lang code with
  | None => Raise (External 0)
  | Some (pt1, pt3) => Done (if negb (Py.str_eqb pt1 []) then pt1 else pt3)
  end.

(** [c.isspace()] on 8-bit characters. *)
Definition is_space (a : ascii) : bool :=
  let n := N_of_ascii a in
  ((9 <=? n)%N && (n <=? 13)%N) || ((28 <=? n)%N && (n <=? 32)%N) ||
  (n =? 133)%N || (n =? 160)%N.

(** [s.lstrip()] *)
Fixpoint lstrip (s : str) : str :=
  match s with
  | a :: s' => if is_space a then lstrip s' else s
  | [] => []
  end.

(** [s.strip()] *)
Definition strip (s : str) : str := rev (lstrip (rev (lstrip s))).

(** [d[k] = v] on a [dict], which keeps its keys in insertion order. *)
Fixpoint dict_set {V} (k : str) (v : V) (d : list (str * V)) : list (str * V) :=
  match d with
  | [] => [(k, v)]
  | (k', v') :: d' =>
      if Py.str_eqb k' k then (k', v) :: d' else (k', v') :: dict_set k v d'
  end.

(** [d.get(k)] *)
Fixpoint dict_get {V} (k : str) (d : list (str * V)) : option V :=
  match d with
  | [] => None
  | (k', v) :: d' => if Py.str_eqb k' k then Some v else dict_get k d'
  end.

(** [load_text_dataset]: the list [data] built from the lines of the
    source and target files. *)
Definition load_text_dataset (src_lang trg_lang : str) (src_file trg_file : list str)
  : list (list (str * str)) :=
  map (fun lines =>
         dict_set trg_lang (strip (snd lines))
           (dict_set src_lang (strip (fst lines)) []))
      (combine src_file trg_file).

(** [postprocess_text(preds, labels)] *)
Definition postprocess_text (preds labels : list str) : list str * list (list str) :=
  (map strip preds, map (fun label => [strip label]) labels).

End DataArgs.

(** ** Language codes and extra tokens of the tokenizer *)

Module Tokenizers.

(** The tokenizer classes [main] tells apart with [isinstance]. *)
Inductive tokenizer_class :=
| MBartTokenizer
| MBartTokenizerFast
| MBart50Tokenizer
| MBart50TokenizerFast
| M2M100Tokenizer
| NllbTokenizer
| NllbTokenizerFast
| OtherTokenizer.

(** [MULTILINGUAL_TOKENIZERS] *)
Definition MULTILINGUAL_TOKENIZERS : list tokenizer_class :=
  [MBartTokenizer; MBartTokenizerFast; MBart50Tokenizer; MBart50TokenizerFast;
   M2M100Tokenizer; NllbTokenizer; NllbTokenizerFast].

Definition class_eqb (c d : tokenizer_class) : bool :=
  match c, d with
  | MBartTokenizer, MBartTokenizer
  | MBartTokenizerFast, MBartTokenizerFast
  | MBart50Tokenizer, MBart50Tokenizer
  | MBart50TokenizerFast, MBart50TokenizerFast
  | M2M100Tokenizer, M2M100Tokenizer
  | NllbTokenizer, NllbTokenizer
  | NllbTokenizerFast, NllbTokenizerFast
  | OtherTokenizer, OtherTokenizer => true
  | _, _ => false
  end.

(** [isinstance(tokenizer, classes)] *)
Definition isinstance (c : tokenizer_class) (classes : list tokenizer_class) : bool :=
  existsb (class_eqb c) classes.

(** A tokenizer: its class, the dictionaries the script writes to, and
    the state [V] that the library keeps (vocabulary, special tokens). *)
Record tokenizer (V : Type) := {
  class_of : tokenizer_class;
  library_state : V;
  lang_code_to_id : str -> option Z;
  id_to_lang_code : Z -> option str;
  fairseq_tokens_to_ids : str -> option Z;
  fairseq_ids_to_tokens : Z -> option str;
  lang_token_to_id : str -> option Z;
  id_to_lang_token : Z -> option str
}.

Arguments class_of {V} _.
Arguments library_state {V} _.
Arguments lang_code_to_id {V} _ _.
Arguments id_to_lang_code {V} _ _.
Arguments fairseq_tokens_to_ids {V} _ _.
Arguments fairseq_ids_to_tokens {V} _ _.
Arguments lang_token_to_id {V} _ _.
Arguments id_to_lang_token {V} _ _.

(** What the tokenizer library does on its own state. *)
Class TokenizerLibrary (V : Type) := {
  (** [tokenizer.additional_special_tokens] *)
  additional_special_tokens : V -> list str;
  (** [tokenizer.add_special_tokens({"additional_special_tokens": tokens})] *)
  add_special_tokens : list str -> V -> V;
  (** [tokenizer.convert_tokens_to_ids(token)] *)
  convert_tokens_to_ids : V -> str -> Z;
  (** [tokenizer.vocab.keys()] *)
  vocab_keys : V -> list str;
  (** [tokenizer.add_tokens(tokens)] *)
  add_tokens : list str -> V -> V
}.

(** [d[k] = v] on a dictionary with string keys. *)
Definition set_item {A} (d : str -> option A) (k : str) (v : A) : str -> option A :=
  fun x => if Py.str_eqb x k then Some v else d x.

(** [d[k] = v] on a dictionary with integer keys. *)
Definition set_item_int {A} (d : Z -> option A) (k : Z) (v : A) : Z -> option A :=
  fun x => if x =? k then Some v else d x.

Section Tokenizer.

Context {V : Type} {T : TokenizerLibrary V}.

(** [add_lang_code_to_tokenizer(tokenizer, lang_code)] *)
Definition add_lang_code_to_tokenizer (t : tokenizer V) (lang_code : str) : tokenizer V :=
  match lang_code_to_id t lang_code with
  | Some _ => t
  | None =>
      let state :=
        add_special_tokens
          (additional_special_tokens (library_state t) ++ [lang_code])
          (library_state t) in
      let lang_id := convert_tokens_to_ids state lang_code in
      let codes := set_item (lang_code_to_id t) lang_code lang_id in
      if isinstance (class_of t) [NllbTokenizer; MBart50Tokenizer; MBartTokenizer] then
        {| class_of := class_of t;
           library_state := state;
           lang_code_to_id := codes;
           id_to_lang_code := set_item_int (id_to_lang_code t) lang_id lang_code;
           fairseq_tokens_to_ids := set_item (fairseq_tokens_to_ids t) lang_code lang_id;
           fairseq_ids_to_tokens := set_item_int (fairseq_ids_to_tokens t) lang_id lang_code;
           lang_token_to_id := lang_token_to_id t;
           id_to_lang_token := id_to_lang_token t |}
      else if isinstance (class_of t) [M2M100Tokenizer] then
        {| class_of := class_of t;
           library_state := state;
           lang_code_to_id := codes;
           id_to_lang_code := id_to_lang_code t;
           fairseq_tokens_to_ids := fairseq_tokens_to_ids t;
           fairseq_ids_to_tokens := fairseq_ids_to_tokens t;
           lang_token_to_id := set_item (lang_token_to_id t) lang_code lang_id;
           id_to_lang_token := set_item_int (id_to_lang_token t) lang_id lang_code |}
      else
        {| class_of := class_of t;
           library_state := state;
           lang_code_to_id := codes;
           id_to_lang_code := id_to_lang_code t;
           fairseq_tokens_to_ids := fairseq_tokens_to_ids t;
           fairseq_ids_to_tokens := fairseq_ids_to_tokens t;
           lang_token_to_id := lang_token_to_id t;
           id_to_lang_token := id_to_lang_token t |}
  end.

(** Lines 568-570 of [main] *)
Definition add_new_lang_codes (add_new_lang_code : bool) (t : tokenizer V)
  (source_lang target_lang : str) : tokenizer V :=
  if add_new_lang_code && isinstance (class_of t) MULTILINGUAL_TOKENIZERS then
    add_lang_code_to_tokenizer (add_lang_code_to_tokenizer t source_lang) target_lang
  else t.

(** Lines 617-619 of [main]: the id of the token forced at the start of
    generation; a code the tokenizer does not know is a [KeyError]. *)
Definition forced_bos_token_id (t : tokenizer V) (forced_bos_token : option str)
  : DataArgs.outcome (option Z) :=
  match forced_bos_token with
  | None => DataArgs.Done None
  | Some code =>
      match lang_code_to_id t code with
      | Some id => DataArgs.Done (Some id)
      | None => DataArgs.Raise (DataArgs.KeyError code)
      end
  end.

End Tokenizer.

(** The elements of a list, each once. *)
Fixpoint distinct (l : list str) : list str :=
  match l with
  | [] => []
  | x :: l' => if mem x l' then distinct l' else x :: distinct l'
  end.

(** Lines 572-576 of [main]:
    [set(extra_tokens) - set(tokenizer.vocab.keys())], the tokens handed
    to [add_tokens].  A Python set has no order of its own; the list
    here is one of its enumerations. *)
Definition new_tokens (extra_tokens vocab : list str) : list str :=
  distinct (filter (fun t => negb (mem t vocab)) extra_tokens).

End Tokenizers.

(** ** Notions used to state what the code does *)

(** [sep.join(pieces)] for a one-character separator. *)
Fixpoint sep_join (c : ascii) (pieces : list str) : str :=
  match pieces with
  | [] => []
  | [p] => p
  | p :: rest => p ++ c :: sep_join c rest
  end.

(** A string without white space at either end. *)
Definition trimmed (s : str) : Prop :=
  (forall a rest, s = a :: rest -> DataArgs.is_space a = false) /\
  (forall a front, s = front ++ [a] -> DataArgs.is_space a = false).

(** The calls that mirror the output location: the download of the
    folder (line 445), the listing, the deletions and the upload of the
    [finally] block (lines 857-861).  The data files that the job setup
    fetches with [StorageManager.get_local_copy] (lines 498-504) are part
    of [ESetup] and are not among them. *)
Definition mirror_event (e : event) : bool :=
  match e with
  | EDownload _ _ | EList _ | EDelete _ _ | EUpload _ _ => true
  | _ => false
  end.

(** The calls of the remote pruning: the listing and the deletions. *)
Definition prune_event (e : event) : bool :=
  match e with
  | EList _ | EDelete _ _ => true
  | _ => false
  end.

(** A computation whose calls all satisfy [allowed]: it only appends such
    calls to the record. *)
Definition only_calls {X A} (allowed : event -> bool) (m : M X A) : Prop :=
  forall s, exists calls,
    trace (fst (m s)) = trace s ++ calls /\ forallb allowed calls = true.

(** Collaborators whose listing of remote storage raises. *)
Definition with_failing_list {X} (C : Collaborators X) : Collaborators X := {|
  gettempdir := @gettempdir X C;
  temp_names := @temp_names X C;
  download_folder := @download_folder X C;
  storage_list url w := (w, Err (Raised 3));
  helper_delete := @helper_delete X C;
  upload_folder := @upload_folder X C;
  job_setup := @job_setup X C;
  trainer_train := @trainer_train X C;
  trainer_evaluate := @trainer_evaluate X C;
  trainer_predict := @trainer_predict X C;
  job_finish := @job_finish X C
|}.

(** ** Sample arguments and a sample tokenizer *)

Module SampleData.

(** Text files for training and validation, a source and a target file
    each; padding to the maximal length, ignored in the loss. *)
Definition data_args : DataArgs.DataTrainingArguments :=
  {| DataArgs.source_lang := Some (lit "srp_Cyrl");
     DataArgs.target_lang := Some (lit "srp_Latn");
     DataArgs.dataset_name := None;
     DataArgs.train_file := Some (Many [lit "train.cyrl.txt"; lit "train.latn.txt"]);
     DataArgs.validation_file := Some (Many [lit "dev.cyrl.txt"; lit "dev.latn.txt"]);
     DataArgs.test_file := None;
     DataArgs.max_target_length := Some 128;
     DataArgs.val_max_target_length := None;
     DataArgs.pad_to_max_length := true;
     DataArgs.ignore_pad_token_for_loss := true;
     DataArgs.max_train_samples := Some 2 |}.

(** The same arguments once checked. *)
Definition checked_args : DataArgs.DataTrainingArguments :=
  DataArgs.set_val_max_target_length data_args (Some 128).

(** The languages [iso639] knows here. *)
Definition Lang (code : str) : option (str * str) :=
  if Py.str_eqb code (lit "srp") then Some (lit "sr", lit "srp")
  else if Py.str_eqb code (lit "eng") then Some (lit "en", lit "eng")
  else if Py.str_eqb code (lit "ace") then Some ([], lit "ace")
  else None.

(** The position of a token in a vocabulary, from [start]. *)
Fixpoint index_from (start : Z) (token : str) (vocab : list str) : Z :=
  match vocab with
  | [] => 3
  | t :: rest => if Py.str_eqb t token then start else index_from (start + 1) token rest
  end.

(** A tokenizer library whose state is the vocabulary: a token's id is
    its position, and [3] for an unknown token. *)
#[export] Instance library : Tokenizers.TokenizerLibrary (list str) := {|
  Tokenizers.additional_special_tokens vocab := [];
  Tokenizers.add_special_tokens tokens vocab :=
    vocab ++ filter (fun t => negb (mem t vocab)) tokens;
  Tokenizers.convert_tokens_to_ids vocab token := index_from 0 token vocab;
  Tokenizers.vocab_keys vocab := vocab;
  Tokenizers.add_tokens tokens vocab := vocab ++ tokens
|}.

(** An NLLB tokenizer that knows English only. *)
Definition nllb : Tokenizers.tokenizer (list str) :=
  {| Tokenizers.class_of := Tokenizers.NllbTokenizer;
     Tokenizers.library_state := [lit "<s>"; lit "<pad>"; lit "</s>"; lit "<unk>";
                                  lit "eng_Latn"];
     Tokenizers.lang_code_to_id :=
       fun c => if Py.str_eqb c (lit "eng_Latn") then Some 4 else None;
     Tokenizers.id_to_lang_code := fun i => if i =? 4 then Some (lit "eng_Latn") else None;
     Tokenizers.fairseq_tokens_to_ids :=
       fun c => if Py.str_eqb c (lit "eng_Latn") then Some 4 else None;
     Tokenizers.fairseq_ids_to_tokens :=
       fun i => if i =? 4 then Some (lit "eng_Latn") else None;
     Tokenizers.lang_token_to_id := fun _ => None;
     Tokenizers.id_to_lang_token := fun _ => None |}.

End SampleData.

(** ** A sample environment

    A concrete instance of the libraries and collaborators, used to run
    the definitions on examples. *)

Module Sample.

Definition scheme_char (a : ascii) : bool :=
  Py.is_alpha a || Py.is_digit a || Py.char_eqb a "+" || Py.char_eqb a "-" ||
  Py.char_eqb a ".".

(** The longest prefix free of the characters [stop], and the rest. *)
Fixpoint span_until (stop : ascii -> bool) (s : str) : str * str :=
  match s with
  | [] => ([], [])
  | a :: s' =>
      if stop a then ([], s)
      else let (h, t) := span_until stop s' in (a :: h, t)
  end.

(** [urllib.parse.urlparse] on URLs without parameters: scheme, network
    location and path. *)
Definition py_urlparse (url : str) : ParseResult :=
  let i := Py.find url ":"%char in
  let head := Py.slice_to url i in
  let has_scheme :=
    (0 <? i) && match url with a :: _ => Py.is_alpha a | [] => false end &&
    forallb scheme_char head in
  let sch := if has_scheme then map Py.lower_char head else [] in
  let rest := if has_scheme then Py.slice_from url (i + 1) else url in
  let is_delim a := Py.char_eqb a "/" || Py.char_eqb a "?" || Py.char_eqb a "#" in
  let (loc, rest') :=
    if Py.startswith rest (lit "//") then span_until is_delim (Py.slice_from rest 2)
    else ([], rest) in
  let (no_fragment, _) := span_until (fun a => Py.char_eqb a "#") rest' in
  let (pth, _) := span_until (fun a => Py.char_eqb a "?") no_fragment in
  {| scheme := sch; netloc := loc; path := pth |}.

(** Locations without a scheme, or with scheme [file], are local; their
    conformed URL is [file://] followed by the path. *)
#[export] Instance libs : Libs := {|
  urlparse := py_urlparse;
  helper_base_url url :=
    let p := py_urlparse url in
    if Py.str_eqb (scheme p) [] || Py.str_eqb (scheme p) (lit "file")
    then lit "file://" else scheme p ++ lit "://" ++ netloc p;
  helper_conform_url url :=
    if Py.startswith url (lit "file://") then url else lit "file://" ++ url;
  as_posix p := p
|}.

(** Remote storage as the list of object URLs it holds. *)
Definition remote := list str.

Definition set_ext (w : world remote) (r : remote) : world remote :=
  {| fs := fs w; cwd := cwd w; ext := r |}.

(** Collaborators whose download and upload fail on demand and whose
    training library does nothing. *)
Definition collaborators (download_ok upload_ok : bool) : Collaborators remote := {|
  gettempdir := lit "/tmp";
  temp_names := [lit "a1"; lit "b2"; lit "c3"];
  download_folder url dir w := (w, if download_ok then Ok tt else Err (Raised 1));
  storage_list url w := (w, Ok (filter (fun u => Py.startswith u url) (ext w)));
  helper_delete base pth w :=
    (set_ext w (filter (fun u => negb (Py.str_eqb u (base ++ pth))) (ext w)), Ok tt);
  upload_folder dir url w := (w, if upload_ok then Ok tt else Err (Raised 2));
  job_setup a w := (w, Ok tt);
  trainer_train a c w := (w, Ok tt);
  trainer_evaluate a w := (w, Ok tt);
  trainer_predict a w := (w, Ok tt);
  job_finish a w := (w, Ok tt)
|}.

(** A machine with [/tmp], [/work] (the working directory) and an output
    directory [/out] holding [children]. *)
Definition machine (children : list (str * node)) (r : remote) : world remote :=
  {| fs := Dir [(lit "tmp", Dir []); (lit "work", Dir []); (lit "out", Dir children)];
     cwd := [lit "work"];
     ext := r |}.

Definition job (out : str) : Args :=
  {| config_url := Some (lit "s3://bucket/config.json");
     output_dir := out;
     logging_dir := out ++ lit "/runs";
     do_train := true; do_eval := true; do_predict := true;
     overwrite_output_dir := false;
     resume_from_checkpoint := None;
     delete_checkpoints_at_end := true |}.

(** Remote storage holding a checkpoint and a model below
    [s3://bucket/run1], and an unrelated run. *)
Definition bucket : remote :=
  [lit "s3://bucket/run1/checkpoint-5/model.bin";
   lit "s3://bucket/run1/model.bin";
   lit "s3://bucket/run10/checkpoint-5/model.bin"].

(** A job whose output directory [run1] is given relative to the
    configuration file [s3://bucket/config.json]. *)
Definition mirrored_job : Args := job (lit "run1").

Definition start : state remote := initial (machine [] bucket).

(** The same job with its output directory written [run1/]. *)
Definition slash_job : Args := job (lit "run1/").

(** The workspace [mirrored_job] runs in, once acquired from [start]. *)
Definition workspace : Workspace :=
  {| output_url := lit "s3://bucket/run1";
     temp_dir := Some (lit "/tmp/tmpa1");
     training_args :=
       set_dirs mirrored_job (lit "/tmp/tmpa1/run1") (lit "/tmp/tmpa1/run1/runs") |}.

(** A workspace directory with two checkpoints, a regular file named
    like a checkpoint, a directory [checkpoint-best] and a model file. *)
Definition trained : list (str * node) :=
  [(lit "checkpoint-100", Dir [(lit "pytorch_model.bin", File)]);
   (lit "checkpoint-500", Dir []);
   (lit "checkpoint-7", File);
   (lit "checkpoint-best", Dir []);
   (lit "model.bin", File)].

End Sample.

Example sample_urlparse :
  Sample.py_urlparse (lit "s3://bucket/run1") =
  {| scheme := lit "s3"; netloc := lit "bucket"; path := lit "/run1" |}.
Proof. reflexivity. Qed.

(** ** Facts about strings and paths *)

Lemma str_eqb_eq (s t : str) : Py.str_eqb s t = true <-> s = t.
Proof.
  revert t; induction s as [|a s IH]; intros [|b t]; simpl; split;
    try congruence; try reflexivity.
  - intros H. apply andb_true_iff in H as [Hc Hs].
    apply Ascii.eqb_eq in Hc. apply IH in Hs. congruence.
  - intros H. injection H as -> ->. apply andb_true_iff; split.
    + apply Ascii.eqb_refl.
    + now apply IH.
Qed.

Lemma str_eqb_refl (s : str) : Py.str_eqb s s = true.
Proof. now apply str_eqb_eq. Qed.

Lemma str_eqb_neq (s t : str) : Py.str_eqb s t = false <-> s <> t.
Proof.
  split.
  - intros H E. apply str_eqb_eq in E. congruence.
  - intros H. destruct (Py.str_eqb s t) eqn:E; [|reflexivity].
    apply str_eqb_eq in E. contradiction.
Qed.

Lemma str_eqb_sym (s t : str) : Py.str_eqb s t = Py.str_eqb t s.
Proof.
  destruct (Py.str_eqb s t) eqn:E.
  - apply str_eqb_eq in E. subst. symmetry. apply str_eqb_refl.
  - symmetry. apply str_eqb_neq. apply str_eqb_neq in E. congruence.
Qed.

Lemma startswith_app (p s : str) : Py.startswith (p ++ s) p = true.
Proof.
  induction p as [|a p IH]; simpl; [reflexivity|].
  unfold Py.char_eqb. now rewrite Ascii.eqb_refl.
Qed.

Lemma startswith_spec (s p : str) :
  Py.startswith s p = true <-> exists t, s = p ++ t.
Proof.
  split.
  - revert s; induction p as [|b p IH]; intros s H.
    + now exists s.
    + destruct s as [|a s]; simpl in H; [discriminate|].
      apply andb_true_iff in H as [Hc Hs].
      apply Ascii.eqb_eq in Hc. destruct (IH _ Hs) as [t ->].
      exists t. now subst.
  - intros [t ->]. apply startswith_app.
Qed.

Lemma slice_from_len_app (p t : str) : Py.slice_from (p ++ t) (Py.len p) = t.
Proof.
  unfold Py.slice_from, Py.len.
  destruct (Z.ltb_spec (Z.of_nat (List.length p)) 0) as [E|E]; [lia|].
  rewrite Nat2Z.id. rewrite skipn_app, skipn_all, Nat.sub_diag. reflexivity.
Qed.

Lemma endswith_spec (s p : str) :
  Py.endswith s p = true <-> exists t, s = t ++ p.
Proof.
  unfold Py.endswith. rewrite startswith_spec. split.
  - intros [t H]. exists (rev t).
    rewrite <- (rev_involutive s), H, rev_app_distr, rev_involutive. reflexivity.
  - intros [t ->]. exists (rev t). apply rev_app_distr.
Qed.

(** [rfind] finds the last occurrence: nothing after it is the needle. *)
Lemma rfind_from_spec (c : ascii) (s : str) (i : Z) :
  0 <= i ->
  (~ In c s -> Py.rfind_from c s i = -1) /\
  (In c s -> exists pre post,
      s = pre ++ c :: post /\ ~ In c post /\ Py.rfind_from c s i = i + Py.len pre).
Proof.
  revert i; induction s as [|a s IH]; intros i Hi; simpl.
  - split; [reflexivity|intros []].
  - destruct (IH (i + 1) ltac:(lia)) as [IHn IHy].
    destruct (in_dec ascii_dec c s) as [Hin|Hnin].
    + destruct (IHy Hin) as (pre & post & -> & Hpost & Hr).
      split; [intros H; exfalso; apply H; right; exact Hin|].
      intros _. exists (a :: pre), post. repeat split; [assumption|].
      rewrite Hr. unfold Py.len in *. simpl List.length.
      destruct (Z.leb_spec 0 (i + 1 + Z.of_nat (List.length pre))) as [E|E]; lia.
    + rewrite (IHn Hnin). simpl. unfold Py.char_eqb.
      destruct (Ascii.eqb a c) eqn:E.
      * apply Ascii.eqb_eq in E. subst a. split; [intros H; exfalso; apply H; now left|].
        intros _. exists [], s. repeat split; [assumption|]. unfold Py.len; simpl; lia.
      * split; [reflexivity|]. intros [H|H]; [|contradiction].
        subst a. rewrite Ascii.eqb_refl in E. discriminate.
Qed.

(** The prefix of [s] up to and including its last [c]. *)
Lemma slice_to_rfind (c : ascii) (s : str) :
  In c s ->
  exists pre post,
    s = pre ++ c :: post /\ ~ In c post /\
    Py.slice_to s (Py.rfind s c + 1) = pre ++ [c].
Proof.
  intros Hin. destruct (rfind_from_spec c s 0 ltac:(lia)) as [_ H].
  destruct (H Hin) as (pre & post & Hs & Hpost & Hr).
  exists pre, post. repeat split; try assumption.
  unfold Py.rfind. rewrite Hr. unfold Py.slice_to, Py.len.
  destruct (Z.ltb_spec (0 + Z.of_nat (List.length pre) + 1) 0) as [E|E]; [lia|].
  replace (Z.to_nat (0 + Z.of_nat (List.length pre) + 1)) with (List.length (pre ++ [c])).
  - rewrite Hs. change (pre ++ c :: post) with (pre ++ [c] ++ post).
    rewrite app_assoc, firstn_app, firstn_all, Nat.sub_diag. simpl.
    now rewrite app_nil_r.
  - rewrite length_app. simpl. lia.
Qed.

Section ResolverFacts.

Context {L : Libs}.

Lemma make_absolute_one (origin : option str) (p : str) :
  make_absolute origin (One p) = One (make_absolute_str origin p).
Proof.
  unfold make_absolute_str, make_absolute.
  destruct origin as [u|]; [|reflexivity].
  destruct (get_direct_access u); reflexivity.
Qed.

Lemma make_absolute_many (origin : option str) (ps : list str) :
  make_absolute origin (Many ps) = Many (map (make_absolute_str origin) ps).
Proof.
  unfold make_absolute_str, make_absolute.
  destruct origin as [u|]; [|now rewrite map_id].
  destruct (get_direct_access u); reflexivity.
Qed.

(** C4: resolving a relative path [p] against a remote configuration
    location [u] that has no trailing slash and contains a [/] yields the
    part of [u] up to and including its last [/], followed by [p]; a
    sequence of targets is resolved by the same rule element by element,
    in order. *)
Theorem make_absolute_remote (u p : str) (ps : list str) :
  get_direct_access u = None ->
  Py.endswith u [OsPath.sep] = false ->
  In OsPath.sep u ->
  is_absolute p = false ->
  exists dir_url file_name,
    u = dir_url ++ file_name /\
    Py.endswith dir_url [OsPath.sep] = true /\
    ~ In OsPath.sep file_name /\
    make_absolute (Some u) (One p) = One (dir_url ++ p) /\
    make_absolute (Some u) (Many ps) =
      Many (map (fun q => if is_absolute q then q else dir_url ++ q) ps).
Proof.
  intros Hremote _ Hin Hrel.
  destruct (slice_to_rfind OsPath.sep u Hin) as (pre & post & Hu & Hpost & Hslice).
  exists (pre ++ [OsPath.sep]), post. repeat split.
  - rewrite Hu, <- app_assoc. reflexivity.
  - apply endswith_spec. now exists pre.
  - exact Hpost.
  - unfold make_absolute. rewrite Hremote, Hslice, Hrel. reflexivity.
  - unfold make_absolute. rewrite Hremote, Hslice. reflexivity.
Qed.

(** C5: resolution is idempotent on absolute results: when every string
    that [make_absolute] returns is absolute, resolving the result again
    against the same configuration location returns it unchanged. *)
Theorem make_absolute_idempotent (origin : option str) (x : target) :
  all_absolute (make_absolute origin x) = true ->
  make_absolute origin (make_absolute origin x) = make_absolute origin x.
Proof.
  destruct x as [p|ps].
  - rewrite make_absolute_one. simpl. intros Habs.
    rewrite make_absolute_one. f_equal.
    unfold make_absolute_str at 1. unfold make_absolute.
    destruct origin as [u|]; [|reflexivity].
    destruct (get_direct_access u); now rewrite Habs.
  - rewrite make_absolute_many. simpl. intros Habs.
    rewrite make_absolute_many. f_equal.
    rewrite <- (map_id (map (make_absolute_str origin) ps)) at 2.
    apply map_ext_in. intros q Hq.
    rewrite forallb_forall in Habs. specialize (Habs q Hq).
    unfold make_absolute_str, make_absolute.
    destruct origin as [u|]; [|reflexivity].
    destruct (get_direct_access u); now rewrite Habs.
Qed.

End ResolverFacts.

(** ** Facts about the file system *)

Lemma split_nonempty (c : ascii) (s : str) : Py.split c s <> [].
Proof.
  destruct s as [|a s]; simpl; [discriminate|].
  destruct (Py.char_eqb a c); [discriminate|].
  destruct (Py.split c s); discriminate.
Qed.

Lemma split_no_sep (c : ascii) (s : str) :
  forallb (fun a => negb (Py.char_eqb a c)) s = true -> Py.split c s = [s].
Proof.
  induction s as [|a s IH]; simpl; [reflexivity|].
  intros H. apply andb_true_iff in H as [Ha Hs].
  apply negb_true_iff in Ha. rewrite Ha, (IH Hs). reflexivity.
Qed.

Lemma split_app_sep (c : ascii) (s t : str) :
  Py.split c (s ++ c :: t) = Py.split c s ++ Py.split c t.
Proof.
  induction s as [|a s IH]; simpl.
  - unfold Py.char_eqb. now rewrite Ascii.eqb_refl.
  - rewrite IH. destruct (Py.char_eqb a c); [reflexivity|].
    destruct (Py.split c s) eqn:E; [|reflexivity].
    now apply split_nonempty in E.
Qed.

Lemma simple_name_no_sep (n : str) :
  simple_name n = true ->
  forallb (fun a => negb (Py.char_eqb a OsPath.sep)) n = true.
Proof.
  unfold simple_name. intros H.
  now apply andb_true_iff in H as [_ H].
Qed.

Lemma simple_name_kept (n : str) :
  simple_name n = true ->
  negb (Py.str_eqb n [] || Py.str_eqb n (lit ".")) = true.
Proof.
  unfold simple_name. intros H.
  apply andb_true_iff in H as [H _]. apply andb_true_iff in H as [H _].
  apply andb_true_iff in H as [H1 H2].
  apply negb_true_iff in H1, H2. now rewrite H1, H2.
Qed.

Lemma simple_name_not_abs (n : str) :
  simple_name n = true -> Py.startswith n [OsPath.sep] = false.
Proof.
  intros H. pose proof (simple_name_no_sep n H) as Hs.
  destruct n as [|a n]; [reflexivity|]. simpl in *.
  apply andb_true_iff in Hs as [Ha _]. apply negb_true_iff in Ha.
  now rewrite Ha.
Qed.

(** Joining a file name to a directory path appends one component. *)
Lemma components_join (wd : list str) (d n : str) :
  d <> [] -> simple_name n = true ->
  components wd (OsPath.join d n) = components wd d ++ [n].
Proof.
  intros Hd Hn. unfold OsPath.join. rewrite (simple_name_not_abs n Hn).
  destruct d as [|a d]; [contradiction|].
  set (dd := a :: d) in *.
  set (keep := fun c => negb (Py.str_eqb c [] || Py.str_eqb c (lit "."))).
  assert (Hsplit : Py.split OsPath.sep n = [n])
    by apply (split_no_sep _ _ (simple_name_no_sep n Hn)).
  assert (Hkeep : keep n = true) by apply (simple_name_kept n Hn).
  destruct (Py.endswith dd [OsPath.sep]) eqn:E.
  - apply endswith_spec in E as [t Ht].
    assert (H1 : Py.split OsPath.sep (dd ++ n) = Py.split OsPath.sep t ++ [n]).
    { rewrite Ht, <- app_assoc. change ([OsPath.sep] ++ n) with (OsPath.sep :: n).
      now rewrite split_app_sep, Hsplit. }
    assert (H2 : Py.split OsPath.sep dd = Py.split OsPath.sep t ++ [[]]).
    { rewrite Ht. now rewrite split_app_sep. }
    unfold components, OsPath.isabs. fold keep.
    change (Py.startswith (dd ++ n) [OsPath.sep]) with (Py.startswith dd [OsPath.sep]).
    rewrite H1, H2, !filter_app. cbn [filter]. rewrite Hkeep.
    change (keep []) with false. now rewrite app_nil_r, app_assoc.
  - unfold components, OsPath.isabs. fold keep.
    change (Py.startswith (dd ++ OsPath.sep :: n) [OsPath.sep])
      with (Py.startswith dd [OsPath.sep]).
    rewrite split_app_sep, filter_app, Hsplit. cbn [filter]. rewrite Hkeep.
    now rewrite app_assoc.
Qed.

Lemma lookup_app (p q : list str) (n : node) :
  lookup (p ++ q) n =
  match lookup p n with Some m => lookup q m | None => None end.
Proof.
  revert n; induction p as [|c p IH]; intros n; simpl; [reflexivity|].
  destruct n as [|ch]; [reflexivity|].
  destruct (assoc c ch); [apply IH|reflexivity].
Qed.

(** The entry [n] of directory [d] is what [d/n] denotes. *)
Lemma stat_join {X} (w : world X) (d n : str) (ch : list (str * node)) :
  stat w d = Some (Dir ch) -> simple_name n = true ->
  stat w (OsPath.join d n) = assoc n ch.
Proof.
  intros Hd Hn. unfold stat in *.
  destruct d as [|a d]; [discriminate|].
  pose proof (components_join (cwd w) (a :: d) n ltac:(discriminate) Hn) as Hc.
  destruct (OsPath.join (a :: d) n) eqn:Ej.
  - unfold OsPath.join in Ej. rewrite (simple_name_not_abs n Hn) in Ej.
    destruct (Py.endswith (a :: d) [OsPath.sep]); discriminate.
  - rewrite Hc, lookup_app, Hd. simpl. destruct (assoc n ch); reflexivity.
Qed.

Lemma assoc_update_same (c : str) (g : node -> node) (ch : list (str * node)) :
  assoc c (update c g ch) = option_map g (assoc c ch).
Proof.
  induction ch as [|[n x] ch IH]; simpl; [reflexivity|].
  destruct (Py.str_eqb n c) eqn:E; simpl; rewrite E; [reflexivity|exact IH].
Qed.

Lemma lookup_alter_same (f : list (str * node) -> list (str * node))
  (p : list str) (root : node) (ch : list (str * node)) :
  lookup p root = Some (Dir ch) ->
  lookup p (alter f p root) = Some (Dir (f ch)).
Proof.
  revert root; induction p as [|c p IH]; intros root H; simpl in *.
  - injection H as ->. reflexivity.
  - destruct root as [|ch0]; [discriminate|].
    rewrite assoc_update_same.
    destruct (assoc c ch0) as [m|]; [|discriminate]. simpl. now apply IH.
Qed.

Lemma update_ext (c : str) (g h : node -> node) (ch : list (str * node)) :
  (forall m, assoc c ch = Some m -> g m = h m) ->
  update c g ch = update c h ch.
Proof.
  induction ch as [|[n x] ch IH]; simpl; [reflexivity|].
  intros H. destruct (Py.str_eqb n c).
  - now rewrite (H x eq_refl).
  - now rewrite IH.
Qed.

Lemma update_update (c : str) (g h : node -> node) (ch : list (str * node)) :
  update c g (update c h ch) = update c (fun m => g (h m)) ch.
Proof.
  induction ch as [|[n x] ch IH]; simpl; [reflexivity|].
  destruct (Py.str_eqb n c) eqn:E; simpl; rewrite E; [reflexivity|now rewrite IH].
Qed.

Lemma update_id (c : str) (g : node -> node) (ch : list (str * node)) :
  (forall m, assoc c ch = Some m -> g m = m) -> update c g ch = ch.
Proof.
  induction ch as [|[n x] ch IH]; simpl; [reflexivity|].
  intros H. destruct (Py.str_eqb n c).
  - now rewrite (H x eq_refl).
  - now rewrite IH.
Qed.

(** Only the listing at [p] matters to [alter]. *)
Lemma alter_ext (f g : list (str * node) -> list (str * node))
  (p : list str) (root : node) (ch : list (str * node)) :
  lookup p root = Some (Dir ch) -> f ch = g ch ->
  alter f p root = alter g p root.
Proof.
  revert root; induction p as [|c p IH]; intros root H E; simpl in *.
  - injection H as ->. now rewrite E.
  - destruct root as [|ch0]; [reflexivity|]. f_equal.
    apply update_ext. intros m Hm. rewrite Hm in H. now apply IH.
Qed.

Lemma alter_alter (f g : list (str * node) -> list (str * node))
  (p : list str) (root : node) :
  alter f p (alter g p root) = alter (fun l => f (g l)) p root.
Proof.
  revert root; induction p as [|c p IH]; intros root; simpl.
  - destruct root; reflexivity.
  - destruct root as [|ch0]; [reflexivity|]. f_equal.
    rewrite update_update. apply update_ext. intros m _. apply IH.
Qed.

Lemma alter_id (f : list (str * node) -> list (str * node))
  (p : list str) (root : node) (ch : list (str * node)) :
  lookup p root = Some (Dir ch) -> f ch = ch -> alter f p root = root.
Proof.
  revert root; induction p as [|c p IH]; intros root H E; simpl in *.
  - injection H as ->. now rewrite E.
  - destruct root as [|ch0]; [reflexivity|]. f_equal.
    apply update_id. intros m Hm. rewrite Hm in H. now apply IH.
Qed.

(** ** Facts about checkpoint names *)

Lemma take_drop_digits (s : str) : s = take_digits s ++ drop_digits s.
Proof.
  induction s as [|a s IH]; simpl; [reflexivity|].
  destruct (Py.is_digit a); simpl; [now rewrite <- IH|reflexivity].
Qed.

Lemma take_digits_all (s : str) : forallb Py.is_digit (take_digits s) = true.
Proof.
  induction s as [|a s IH]; simpl; [reflexivity|].
  destruct (Py.is_digit a) eqn:E; simpl; [now rewrite E|reflexivity].
Qed.

Lemma digit_not_sep (a : ascii) :
  Py.is_digit a = true -> negb (Py.char_eqb a OsPath.sep) = true.
Proof.
  intros H. unfold Py.char_eqb. destruct (Ascii.eqb a OsPath.sep) eqn:E; [|reflexivity].
  apply Ascii.eqb_eq in E. subst a. discriminate.
Qed.

(** The shape of a name the checkpoint pattern matches. *)
Lemma re_checkpoint_shape (n ds : str) :
  re_checkpoint n = Some ds ->
  ds <> [] /\ forallb Py.is_digit ds = true /\
  (n = PREFIX_CHECKPOINT_DIR ++ lit "-" ++ ds \/
   n = PREFIX_CHECKPOINT_DIR ++ lit "-" ++ ds ++ ["010"%char]).
Proof.
  unfold re_checkpoint. intros H.
  destruct (Py.startswith n (PREFIX_CHECKPOINT_DIR ++ lit "-")) eqn:E; [|discriminate].
  apply startswith_spec in E as [rest ->].
  cbv zeta in H.
  rewrite skipn_app, skipn_all, Nat.sub_diag in H. cbn [skipn app] in H.
  pose proof (take_drop_digits rest) as Hsplit.
  pose proof (take_digits_all rest) as Hall.
  destruct (take_digits rest) as [|d ds'] eqn:Et; [discriminate|].
  destruct (Py.str_eqb (drop_digits rest) [] || Py.str_eqb (drop_digits rest) ["010"%char])
    eqn:Etl; [|discriminate].
  injection H as <-. split; [discriminate|]. split; [exact Hall|].
  apply orb_true_iff in Etl as [Etl|Etl]; apply str_eqb_eq in Etl;
    rewrite Etl in Hsplit; rewrite Hsplit.
  - left. now rewrite app_nil_r, <- app_assoc.
  - right. now rewrite <- app_assoc.
Qed.

Lemma matches_checkpoint_prefix (n : str) :
  matches_checkpoint n = true ->
  Py.startswith n (PREFIX_CHECKPOINT_DIR ++ lit "-") = true.
Proof.
  unfold matches_checkpoint, re_checkpoint.
  destruct (Py.startswith n (PREFIX_CHECKPOINT_DIR ++ lit "-")); [reflexivity|discriminate].
Qed.

(** A name the checkpoint pattern matches is a file name. *)
Lemma matches_checkpoint_simple (n : str) :
  matches_checkpoint n = true -> simple_name n = true.
Proof.
  unfold matches_checkpoint. destruct (re_checkpoint n) as [ds|] eqn:E; [|discriminate].
  intros _. destruct (re_checkpoint_shape n ds E) as (_ & Hall & Hn).
  assert (Hds : forallb (fun a => negb (Py.char_eqb a OsPath.sep)) ds = true).
  { rewrite forallb_forall in *. intros a Ha. apply digit_not_sep. now apply Hall. }
  unfold simple_name.
  destruct Hn as [-> | ->]; simpl; rewrite ?forallb_app, Hds; reflexivity.
Qed.




Lemma isdir_join {X} (w : world X) (d n : str) (ch : list (str * node)) :
  stat w d = Some (Dir ch) -> simple_name n = true ->
  isdir w (OsPath.join d n) = is_dir_entry (assoc n ch).
Proof.
  intros Hd Hn. unfold isdir. now rewrite (stat_join w d n ch Hd Hn).
Qed.

(** [get_last_checkpoint] on a directory, in terms of its listing. *)
Lemma get_last_checkpoint_dir {X} (w : world X) (d : str) (ch : list (str * node)) :
  stat w d = Some (Dir ch) ->
  get_last_checkpoint w d =
  match filter (fun n => matches_checkpoint n && is_dir_entry (assoc n ch)) (map fst ch) with
  | [] => Ok None
  | c :: cs => Ok (Some (OsPath.join d (py_max step_of c cs)))
  end.
Proof.
  intros Hd. unfold get_last_checkpoint, listdir. rewrite Hd.
  rewrite (filter_ext_in
             (fun p => matches_checkpoint p && isdir w (OsPath.join d p))
             (fun n => matches_checkpoint n && is_dir_entry (assoc n ch))).
  - reflexivity.
  - intros n _. destruct (matches_checkpoint n) eqn:E; [|reflexivity].
    simpl. apply isdir_join; [assumption|]. now apply matches_checkpoint_simple.
Qed.

(** ** Resume detection *)


Lemma checkpoint_entry_filter {X} (w : world X) (d n : str) (ch : list (str * node)) :
  stat w d = Some (Dir ch) ->
  (checkpoint_entry w d n <->
   In n (filter (fun n => matches_checkpoint n && is_dir_entry (assoc n ch)) (map fst ch))).
Proof.
  intros Hd. rewrite filter_In, andb_true_iff. split.
  - intros (ch' & Hd' & Hin & Hm & Hdir). rewrite Hd in Hd'. injection Hd' as <-. tauto.
  - intros (Hin & Hm & Hdir). exists ch. tauto.
Qed.



(** What the script decides for a workspace directory without checkpoint
    entries: it raises exactly when one of the names listed in the
    workspace is a regular file as seen from the working directory. *)
Lemma detect_without_checkpoint {X} (a : Args) (s : state X) (ch : list (str * node)) :
  do_train a = true -> overwrite_output_dir a = false ->
  stat (now s) (output_dir a) = Some (Dir ch) ->
  (forall n, ~ checkpoint_entry (now s) (output_dir a) n) ->
  resume_decision a s =
  if existsb (fun p => isfile (now s) p) (map fst ch) then ConflictError else FreshStart.
Proof.
  intros Ht Ho Hd Hnone.
  pose proof (get_last_checkpoint_dir _ _ _ Hd) as Hg.
  destruct (filter (fun n => matches_checkpoint n && is_dir_entry (assoc n ch)) (map fst ch))
    as [|c cs] eqn:E.
  - unfold resume_decision, detect_last_checkpoint, bind, observe.
    unfold isdir at 1. rewrite Hd, Ht, Ho. cbn [is_dir_node andb negb].
    unfold attempt. rewrite Hg. unfold listdir. rewrite Hd.
    now destruct (existsb (fun p => isfile (now s) p) (map fst ch)).
  - exfalso. apply (Hnone c).
    apply (checkpoint_entry_filter _ _ _ _ Hd). rewrite E. now left.
Qed.


(** C2, at a failing input: the workspace [/out] holds the regular file
    [model.bin] and no checkpoint, training is requested and overwriting
    is not allowed, the process runs in [/work]; the decision is
    [FreshStart] and no error is raised.  The script tests
    [os.path.isfile] on the bare names [os.listdir] returns, which are
    looked up in the working directory, not in the workspace. *)
Theorem conflict_missed_outside_workspace :
  let w := Sample.machine [(lit "model.bin", File)] [] in
  let a := Sample.job (lit "/out") in
  stat w (output_dir a) = Some (Dir [(lit "model.bin", File)]) /\
  isfile w (OsPath.join (output_dir a) (lit "model.bin")) = true /\
  do_train a = true /\ overwrite_output_dir a = false /\
  resume_decision a (initial w) = FreshStart.
Proof. repeat split; reflexivity. Qed.

(** The same workspace is refused when the process happens to run in a
    directory that holds a regular file of the same name. *)
Example conflict_raised_by_working_directory :
  let w := {| fs := Dir [(lit "work", Dir [(lit "model.bin", File)]);
                         (lit "out", Dir [(lit "model.bin", File)])];
              cwd := [lit "work"]; ext := tt |} in
  resume_decision (Sample.job (lit "/out")) (initial w) = ConflictError.
Proof. reflexivity. Qed.

(** ** Checkpoint deletion *)

Lemma mem_in (n : str) (l : list str) : mem n l = true <-> In n l.
Proof.
  induction l as [|m l IH]; simpl; [split; [discriminate|tauto]|].
  rewrite orb_true_iff, str_eqb_eq, IH. tauto.
Qed.

Lemma nodup_names_filter (P : str -> bool) (l : list str) :
  nodup_names l = true -> nodup_names (filter P l) = true.
Proof.
  induction l as [|n l IH]; simpl; [reflexivity|].
  intros H. apply andb_true_iff in H as [Hn Hl].
  destruct (P n); simpl; [|now apply IH].
  rewrite (IH Hl), andb_true_r. apply negb_true_iff.
  apply negb_true_iff in Hn.
  destruct (mem n (filter P l)) eqn:E; [|reflexivity].
  apply mem_in, filter_In in E as [E _]. apply mem_in in E. congruence.
Qed.

Lemma assoc_filter_name (P : str -> bool) (n : str) (ch : list (str * node)) :
  assoc n (filter (fun e => P (fst e)) ch) = if P n then assoc n ch else None.
Proof.
  induction ch as [|[m x] ch IH]; simpl; [now destruct (P n)|].
  destruct (Py.str_eqb m n) eqn:E.
  - apply str_eqb_eq in E. subst m. destruct (P n) eqn:EP; simpl.
    + now rewrite str_eqb_refl.
    + rewrite IH. now rewrite ?EP.
  - destruct (P m); simpl; [now rewrite E|exact IH].
Qed.

Lemma assoc_in_nodup (n : str) (c : node) (ch : list (str * node)) :
  nodup_names (map fst ch) = true -> In (n, c) ch -> assoc n ch = Some c.
Proof.
  induction ch as [|[m x] ch IH]; simpl; [intros _ []|].
  intros H Hin. apply andb_true_iff in H as [Hm Hch].
  destruct Hin as [Heq|Hin].
  - injection Heq as -> ->. now rewrite str_eqb_refl.
  - destruct (Py.str_eqb m n) eqn:E; [|now apply IH].
    apply str_eqb_eq in E. subst m. apply negb_true_iff in Hm.
    assert (Hmem : mem n (map fst ch) = true).
    { apply mem_in. change n with (fst (n, c)). now apply in_map. }
    congruence.
Qed.

Lemma filter_filter_and {A} (f g : A -> bool) (l : list A) :
  filter f (filter g l) = filter (fun x => g x && f x) l.
Proof.
  induction l as [|x l IH]; simpl; [reflexivity|].
  destruct (g x); simpl; [destruct (f x); now rewrite IH|exact IH].
Qed.

Lemma filter_all {A} (f : A -> bool) (l : list A) :
  (forall x, In x l -> f x = true) -> filter f l = l.
Proof.
  induction l as [|x l IH]; simpl; [reflexivity|]. intros H.
  rewrite (H x (or_introl eq_refl)), IH; [reflexivity|].
  intros y Hy. apply H. now right.
Qed.

Lemma filter_map_swap {A B} (f : A -> B) (P : B -> bool) (l : list A) :
  filter P (map f l) = map f (filter (fun x => P (f x)) l).
Proof.
  induction l as [|x l IH]; simpl; [reflexivity|].
  destruct (P (f x)); simpl; now rewrite IH.
Qed.

Lemma set_fs_same {X} (w : world X) : set_fs w (fs w) = w.
Proof. now destruct w. Qed.

Lemma stat_lookup {X} (w : world X) (d : str) (n : node) :
  stat w d = Some n -> d <> [] /\ lookup (components (cwd w) d) (fs w) = Some n.
Proof. unfold stat. destruct d; [discriminate|]. intros H. split; [discriminate|exact H]. Qed.

Lemma stat_alter {X} (w : world X) (d : str) (ch : list (str * node))
  (f : list (str * node) -> list (str * node)) :
  stat w d = Some (Dir ch) ->
  stat (set_fs w (alter f (components (cwd w) d) (fs w))) d = Some (Dir (f ch)).
Proof.
  intros H. apply stat_lookup in H as [Hd H].
  unfold stat. destruct d; [contradiction|]. simpl cwd. simpl fs.
  now apply lookup_alter_same.
Qed.

(** Removing the child directory [n] of [d]. *)
Lemma rmtree_child {X} (w : world X) (d n : str) (ch : list (str * node)) :
  stat w d = Some (Dir ch) -> simple_name n = true ->
  is_dir_entry (assoc n ch) = true ->
  rmtree (OsPath.join d n) w =
  (set_fs w (alter (filter (fun e => negb (Py.str_eqb (fst e) n)))
                   (components (cwd w) d) (fs w)), Ok tt).
Proof.
  intros Hd Hn Hdir. unfold rmtree.
  rewrite (stat_join w d n ch Hd Hn).
  destruct (assoc n ch) as [[|c]|]; try discriminate.
  apply stat_lookup in Hd as [Hne _].
  rewrite (components_join (cwd w) d n Hne Hn), rev_app_distr. simpl.
  now rewrite rev_involutive.
Qed.

(** Removing several child directories of [d], one after the other. *)
Lemma remove_children {X} (d : str) (names : list str) :
  forall (w : world X) (t : list event) (ch : list (str * node)),
    stat w d = Some (Dir ch) ->
    nodup_names names = true ->
    (forall n, In n names ->
       simple_name n = true /\ is_dir_entry (assoc n ch) = true) ->
    for_each (map (OsPath.join d) names) (fun c => local (rmtree c))
             {| now := w; trace := t |} =
    ({| now := set_fs w (alter (filter (fun e => negb (mem (fst e) names)))
                               (components (cwd w) d) (fs w));
        trace := t |}, Ok tt).
Proof.
  induction names as [|n rest IH]; intros w t ch Hd Hnd Hall.
  - simpl. unfold ret. f_equal. f_equal.
    destruct (stat_lookup _ _ _ Hd) as [_ Hl].
    rewrite (alter_id _ _ _ ch Hl); [apply eq_sym, set_fs_same|].
    now apply filter_all.
  - simpl map. simpl for_each. unfold bind at 1. unfold local at 1. simpl now.
    destruct (Hall n (or_introl eq_refl)) as [Hsn Hdn].
    rewrite (rmtree_child w d n ch Hd Hsn Hdn). simpl trace.
    simpl in Hnd. apply andb_true_iff in Hnd as [Hn Hrest].
    apply negb_true_iff in Hn.
    set (g := filter (fun e : str * node => negb (Py.str_eqb (fst e) n))).
    rewrite (IH _ t (g ch)).
    + f_equal. f_equal. unfold set_fs. simpl. f_equal.
      rewrite alter_alter.
      destruct (stat_lookup _ _ _ Hd) as [_ Hl].
      apply (alter_ext _ _ _ _ ch Hl).
      unfold g. rewrite filter_filter_and. apply filter_ext.
      intros e. simpl. rewrite (str_eqb_sym n (fst e)).
      now rewrite negb_orb.
    + now apply stat_alter.
    + exact Hrest.
    + intros k Hk. destruct (Hall k (or_intror Hk)) as [Hsk Hdk].
      split; [exact Hsk|].
      unfold g. rewrite (assoc_filter_name (fun m => negb (Py.str_eqb m n))).
      destruct (Py.str_eqb k n) eqn:E; [|exact Hdk].
      apply str_eqb_eq in E. subst k. apply mem_in in Hk. congruence.
Qed.

Lemma wf_listing_names (ch : list (str * node)) :
  wf_listing ch = true ->
  forallb simple_name (map fst ch) = true /\ nodup_names (map fst ch) = true.
Proof. unfold wf_listing. intros H. now apply andb_true_iff in H. Qed.

Lemma filter_fst {A B} (P : A -> bool) (l : list (A * B)) :
  map fst (filter (fun e => P (fst e)) l) = filter P (map fst l).
Proof.
  induction l as [|[a b] l IH]; simpl; [reflexivity|].
  destruct (P a); simpl; now rewrite IH.
Qed.

Lemma nodup_names_in_filter (P : str * node -> bool) (ch : list (str * node)) :
  nodup_names (map fst ch) = true -> nodup_names (map fst (filter P ch)) = true.
Proof.
  induction ch as [|[n c] ch IH]; simpl; [reflexivity|].
  intros H. apply andb_true_iff in H as [Hn Hch].
  destruct (P (n, c)); simpl; [|now apply IH].
  rewrite (IH Hch), andb_true_r. apply negb_true_iff. apply negb_true_iff in Hn.
  destruct (mem n (map fst (filter P ch))) eqn:E; [|reflexivity].
  apply mem_in, in_map_iff in E as ([m x] & Hm & Hin). simpl in Hm. subst m.
  apply filter_In in Hin as [Hin _].
  assert (Hmem : mem n (map fst ch) = true).
  { apply mem_in. change n with (fst (n, x)). now apply in_map. }
  congruence.
Qed.

Lemma wf_listing_filter (P : str * node -> bool) (ch : list (str * node)) :
  wf_listing ch = true -> wf_listing (filter P ch) = true.
Proof.
  intros H. destruct (wf_listing_names ch H) as [Hs Hn].
  unfold wf_listing. apply andb_true_iff. split.
  - rewrite forallb_forall in *. intros n Hin. apply Hs.
    apply in_map_iff in Hin as (e & <- & He). apply filter_In in He as [He _].
    now apply in_map.
  - now apply nodup_names_in_filter.
Qed.

(** What [delete_checkpoints] does to a well-formed workspace directory. *)
Lemma delete_checkpoints_run {X} (a : Args) (s : state X) (ch : list (str * node)) :
  stat (now s) (output_dir a) = Some (Dir ch) ->
  wf_listing ch = true ->
  delete_checkpoints a s =
  ({| now := set_fs (now s)
               (alter (filter prune_keeps)
                      (components (cwd (now s)) (output_dir a)) (fs (now s)));
      trace := trace s |}, Ok tt).
Proof.
  intros Hd Hwf. destruct (wf_listing_names ch Hwf) as [Hsimple Hnodup].
  destruct (stat_lookup _ _ _ Hd) as [Hne Hl].
  set (pre := PREFIX_CHECKPOINT_DIR ++ lit "-").
  unfold delete_checkpoints, bind, observe. fold pre.
  unfold path_glob_prefix, listdir.
  destruct (output_dir a) as [|o out] eqn:Eo; [contradiction|]. rewrite <- Eo in *.
  rewrite Hd, filter_map_swap.
  set (names := filter (fun x => isdir (now s) (OsPath.join (output_dir a) x))
                       (filter (fun n => Py.startswith n pre) (map fst ch))).
  destruct s as [w t]. simpl now in *. simpl trace.
  rewrite (remove_children (output_dir a) names w t ch Hd).
  - f_equal. f_equal. f_equal. apply (alter_ext _ _ _ _ ch Hl).
    apply filter_ext_in. intros [n c] Hin. unfold prune_keeps. fold pre.
    cbn [fst snd].
    f_equal.
    assert (Hsn : simple_name n = true).
    { rewrite forallb_forall in Hsimple. apply Hsimple.
      change n with (fst (n, c)). now apply in_map. }
    assert (Hdir : isdir w (OsPath.join (output_dir a) n) = is_dir_node c).
    { rewrite (isdir_join w _ n ch Hd Hsn), (assoc_in_nodup n c ch Hnodup Hin).
      reflexivity. }
    destruct (mem n names) eqn:E.
    + apply mem_in in E. unfold names in E.
      apply filter_In in E as [E Hisdir]. apply filter_In in E as [_ Hpre].
      rewrite Hpre. rewrite <- Hdir, Hisdir. reflexivity.
    + destruct (Py.startswith n pre) eqn:Hpre; [|reflexivity].
      destruct (is_dir_node c) eqn:Hc; [|reflexivity].
      assert (Hmem : mem n names = true).
      { apply mem_in. unfold names. apply filter_In. split; [|congruence].
        apply filter_In. split; [|exact Hpre].
        change n with (fst (n, c)). now apply in_map. }
      congruence.
  - unfold names. now do 2 apply nodup_names_filter.
  - intros n Hn. unfold names in Hn.
    apply filter_In in Hn as [Hn Hisdir]. apply filter_In in Hn as [Hin _].
    assert (Hsn : simple_name n = true).
    { rewrite forallb_forall in Hsimple. now apply Hsimple. }
    split; [exact Hsn|]. now rewrite <- (isdir_join w _ n ch Hd Hsn).
Qed.

Lemma entries_stat {X} (w : world X) (d : str) (ch : list (str * node)) :
  stat w d = Some (Dir ch) -> entries w d = ch.
Proof. unfold entries. now intros ->. Qed.

Lemma filter_idem {A} (f : A -> bool) (l : list A) : filter f (filter f l) = filter f l.
Proof.
  apply filter_all. intros x Hx. now apply filter_In in Hx.
Qed.

Lemma delete_checkpoints_nothing_left {X} (a : Args) (s : state X)
  (ch : list (str * node)) :
  stat (now s) (output_dir a) = Some (Dir ch) ->
  wf_listing ch = true ->
  filter prune_keeps ch = ch ->
  delete_checkpoints a s = (s, Ok tt).
Proof.
  intros Hd Hwf Hsame. rewrite (delete_checkpoints_run a s ch Hd Hwf).
  destruct (stat_lookup _ _ _ Hd) as [_ Hl].
  rewrite (alter_id _ _ _ _ Hl Hsame), set_fs_same. now destruct s.
Qed.

(** C6, as amended: on a well-formed workspace directory, checkpoint
    deletion removes exactly the entries that are directories and whose
    names start with [checkpoint-] -- so every checkpoint directory, such
    as a directory [checkpoint-500] -- and changes nothing else in the
    file system: a file [model.bin] survives.  Deleting again right after
    changes nothing. *)
Theorem delete_checkpoints_spec {X} (a : Args) (s : state X) (ch : list (str * node)) :
  stat (now s) (output_dir a) = Some (Dir ch) ->
  wf_listing ch = true ->
  exists s',
    delete_checkpoints a s = (s', Ok tt) /\
    fs (now s') = alter (filter prune_keeps)
                        (components (cwd (now s)) (output_dir a)) (fs (now s)) /\
    entries (now s') (output_dir a) = filter prune_keeps ch /\
    (forall e, In e ch -> matches_checkpoint (fst e) = true ->
               is_dir_node (snd e) = true ->
               ~ In e (entries (now s') (output_dir a))) /\
    (forall e, In e ch ->
               Py.startswith (fst e) (PREFIX_CHECKPOINT_DIR ++ lit "-") = false \/
               is_dir_node (snd e) = false ->
               In e (entries (now s') (output_dir a))) /\
    (In (lit "model.bin", File) ch ->
     In (lit "model.bin", File) (entries (now s') (output_dir a))) /\
    (forall c, ~ In (lit "checkpoint-500", Dir c) (entries (now s') (output_dir a))) /\
    delete_checkpoints a s' = (s', Ok tt).
Proof.
  intros Hd Hwf.
  pose proof (delete_checkpoints_run a s ch Hd Hwf) as Hrun.
  set (p := components (cwd (now s)) (output_dir a)) in *.
  set (s' := {| now := set_fs (now s) (alter (filter prune_keeps) p (fs (now s)));
                trace := trace s |}) in *.
  assert (Hd' : stat (now s') (output_dir a) = Some (Dir (filter prune_keeps ch)))
    by (apply stat_alter; exact Hd).
  assert (He : entries (now s') (output_dir a) = filter prune_keeps ch)
    by (now apply entries_stat).
  exists s'. split; [exact Hrun|]. split; [reflexivity|]. split; [exact He|].
  rewrite He. repeat split.
  - intros e Hin Hm Hdir Hkept. apply filter_In in Hkept as [_ Hk].
    unfold prune_keeps in Hk. rewrite (matches_checkpoint_prefix _ Hm), Hdir in Hk.
    discriminate.
  - intros e Hin H. apply filter_In. split; [exact Hin|].
    unfold prune_keeps. destruct H as [-> | ->]; [reflexivity|].
    now rewrite andb_false_r.
  - intros Hin. apply filter_In. split; [exact Hin|reflexivity].
  - intros c Hkept. apply filter_In in Hkept as [_ Hk]. discriminate.
  - apply (delete_checkpoints_nothing_left a s' _ Hd' (wf_listing_filter _ _ Hwf)).
    apply filter_idem.
Qed.

(** C9: a regular file of the workspace whose name follows the checkpoint
    naming convention is left in place by checkpoint deletion. *)
Theorem delete_checkpoints_keeps_files {X} (a : Args) (s : state X)
  (ch : list (str * node)) (n : str) :
  stat (now s) (output_dir a) = Some (Dir ch) ->
  wf_listing ch = true ->
  In (n, File) ch ->
  matches_checkpoint n = true ->
  exists s',
    delete_checkpoints a s = (s', Ok tt) /\
    In (n, File) (entries (now s') (output_dir a)) /\
    stat (now s') (OsPath.join (output_dir a) n) = Some File.
Proof.
  intros Hd Hwf Hin Hm.
  pose proof (delete_checkpoints_run a s ch Hd Hwf) as Hrun.
  set (s' := {| now := set_fs (now s)
                         (alter (filter prune_keeps)
                                (components (cwd (now s)) (output_dir a)) (fs (now s)));
                trace := trace s |}) in *.
  assert (Hd' : stat (now s') (output_dir a) = Some (Dir (filter prune_keeps ch)))
    by (apply stat_alter; exact Hd).
  assert (Hkept : In (n, File) (filter prune_keeps ch)).
  { apply filter_In. split; [exact Hin|]. unfold prune_keeps. simpl.
    now rewrite andb_false_r. }
  exists s'. split; [exact Hrun|]. split.
  - now rewrite (entries_stat _ _ _ Hd').
  - rewrite (stat_join _ _ n _ Hd' (matches_checkpoint_simple n Hm)).
    apply assoc_in_nodup; [|exact Hkept].
    apply (wf_listing_names _ (wf_listing_filter prune_keeps ch Hwf)).
Qed.

(** C6, as stated, fails: a directory [checkpoint-best] does not follow
    the checkpoint naming convention, and is deleted all the same. *)
Lemma prune_deletes_other_directories :
  ~ prunes_exactly_checkpoints
      (Sample.job (lit "/out"))
      (initial (Sample.machine
                  [(lit "checkpoint-best", Dir []); (lit "model.bin", File)] [])).
Proof.
  intros H. specialize (H (lit "checkpoint-best", Dir [])).
  vm_compute in H.
  destruct (H (or_introl eq_refl)) as [_ Hback].
  destruct (Hback eq_refl) as [Heq|[]]. discriminate Heq.
Qed.

(** ** Creating and removing directories *)

Lemma assoc_app (n : str) (ch ch' : list (str * node)) :
  assoc n (ch ++ ch') =
  match assoc n ch with Some c => Some c | None => assoc n ch' end.
Proof.
  induction ch as [|[m x] ch IH]; simpl; [reflexivity|].
  destruct (Py.str_eqb m n); [reflexivity|exact IH].
Qed.

Lemma rev_cons_inv {A} (l : list A) (x : A) (r : list A) :
  rev l = x :: r -> l = rev r ++ [x].
Proof.
  intros H. rewrite <- (rev_involutive l), H. reflexivity.
Qed.

(** A successful [mkdir] creates an empty directory where nothing was. *)
Lemma mkdir_ok {X} (s : str) (w w' : world X) :
  mkdir s w = (w', Ok tt) ->
  stat w s = None /\ stat w' s = Some (Dir []) /\
  components (cwd w) s <> [] /\ cwd w' = cwd w /\ ext w' = ext w.
Proof.
  unfold mkdir. destruct (stat w s) as [n|] eqn:Es; [discriminate|].
  destruct s as [|a s]; [discriminate|].
  destruct (rev (components (cwd w) (a :: s))) as [|n rp] eqn:Er; [discriminate|].
  apply rev_cons_inv in Er.
  destruct (lookup (rev rp) (fs w)) as [[|ch]|] eqn:El; try discriminate.
  intros H. injection H as <-. split; [reflexivity|].
  split; [|split; [|split; reflexivity]].
  - unfold stat in *. simpl cwd. simpl fs. rewrite Er in *.
    rewrite lookup_app in *. rewrite El in Es.
    rewrite (lookup_alter_same _ _ _ _ El). simpl in *.
    rewrite assoc_app. destruct (assoc n ch); [discriminate|].
    simpl. now rewrite str_eqb_refl.
  - rewrite Er. now destruct (rev rp).
Qed.

Section MainFacts.

Context {L : Libs} {X : Type} {C : Collaborators X}.

(** [mkdtemp] returns a directory that did not exist and now does. *)
Lemma mkdtemp_from_fresh (names : list str) (w w' : world X) (tmp : str) :
  mkdtemp_from names w = (w', Ok tmp) ->
  stat w tmp = None /\ stat w' tmp = Some (Dir []) /\
  components (cwd w') tmp <> [].
Proof.
  induction names as [|name rest IH]; [discriminate|].
  cbn [mkdtemp_from].
  destruct (mkdir (OsPath.join gettempdir (lit "tmp" ++ name)) w) as [w1 [[]|e]] eqn:Em.
  - intros H. injection H as <- <-.
    destruct (mkdir_ok _ _ _ Em) as (H1 & H2 & H3 & H4 & _).
    rewrite H4. auto.
  - destruct e; try discriminate. exact IH.
Qed.

(** A successful [rmtree] of a directory leaves nothing at its path. *)
Lemma rmtree_removes (t : str) (w : world X) :
  isdir w t = true -> components (cwd w) t <> [] ->
  exists w', rmtree t w = (w', Ok tt) /\ stat w' t = None /\ isdir w' t = false.
Proof.
  intros Hd Hne. unfold rmtree, isdir in *.
  destruct (stat w t) as [[|c]|] eqn:Es; try discriminate.
  destruct (stat_lookup _ _ _ Es) as [Ht Hl].
  destruct (rev (components (cwd w) t)) as [|n rp] eqn:Er.
  - apply (f_equal (@rev str)) in Er. rewrite rev_involutive in Er. contradiction.
  - apply rev_cons_inv in Er. eexists. split; [reflexivity|].
    assert (Hs : stat (set_fs w (alter (filter (fun e => negb (Py.str_eqb (fst e) n)))
                                       (rev rp) (fs w))) t = None).
    { unfold stat. destruct t; [reflexivity|]. simpl cwd. simpl fs.
      rewrite Er in *. rewrite lookup_app in *.
      destruct (lookup (rev rp) (fs w)) as [[|ch]|] eqn:El; try discriminate.
      rewrite (lookup_alter_same _ _ _ _ El). simpl.
      rewrite (assoc_filter_name (fun m => negb (Py.str_eqb m n))).
      now rewrite str_eqb_refl. }
    now rewrite Hs.
Qed.

Lemma try_finally_run {A} (body : M X A) (fin : M X unit) (s s1 : state X) (r : result A) :
  body s = (s1, r) ->
  try_finally body fin s =
  match fin s1 with
  | (s2, Ok _) => (s2, r)
  | (s2, Err e) => (s2, Err e)
  end.
Proof. intros H. unfold try_finally. now rewrite H. Qed.

(** C1, as amended: for a mirrored workspace, when the upload of the
    finalisation raises, its error is what the caller gets and the
    temporary directory is not removed: the machine is left as the failed
    upload left it.  The directory is removed when the upload succeeds. *)
Theorem upload_failure_skips_cleanup {A} (body : M X A) (ws : Workspace)
  (s s1 s2 : state X) (r : result A) (tmp : str) (w3 : world X) :
  temp_dir ws = Some tmp ->
  body s = (s1, r) ->
  remote_prune ws s1 = (s2, Ok tt) ->
  (forall e,
     upload_folder (output_dir (training_args ws)) (output_url ws) (now s2) = (w3, Err e) ->
     try_finally body (finalize ws) s =
     ({| now := w3;
         trace := trace s2 ++ [EUpload (output_dir (training_args ws)) (output_url ws)] |},
      Err e)) /\
  (upload_folder (output_dir (training_args ws)) (output_url ws) (now s2) = (w3, Ok tt) ->
   isdir w3 tmp = true -> components (cwd w3) tmp <> [] ->
   exists w4,
     try_finally body (finalize ws) s =
     ({| now := w4;
         trace := trace s2 ++ [EUpload (output_dir (training_args ws)) (output_url ws)] |},
      r) /\
     isdir w4 tmp = false).
Proof.
  intros Htmp Hbody Hprune. split.
  - intros e Hup. rewrite (try_finally_run _ _ _ _ _ Hbody).
    unfold finalize. rewrite Htmp. unfold bind at 1. rewrite Hprune.
    unfold bind at 1. unfold call at 1. rewrite Hup. reflexivity.
  - intros Hup Hdir Hne. destruct (rmtree_removes tmp w3 Hdir Hne) as (w4 & Hrm & _ & Hgone).
    exists w4. split; [|exact Hgone].
    rewrite (try_finally_run _ _ _ _ _ Hbody).
    unfold finalize. rewrite Htmp. unfold bind at 1. rewrite Hprune.
    unfold bind at 1. unfold call at 1. rewrite Hup.
    unfold local. simpl now. rewrite Hrm. reflexivity.
Qed.








Lemma isdir_of_stat (w : world X) (d : str) (ch : list (str * node)) :
  stat w d = Some (Dir ch) -> isdir w d = true.
Proof. unfold isdir. now intros ->. Qed.

(** Lines 440-447 of [main] for a remote output location, up to the end
    of the download. *)
Lemma acquire_workspace_remote (a : Args) (s : state X) (w1 w2 : world X)
  (tmp : str) (r : result unit) :
  get_direct_access (make_absolute_str (config_url a) (output_dir a)) = None ->
  mkdtemp (now s) = (w1, Ok tmp) ->
  download_folder (make_absolute_str (config_url a) (output_dir a)) tmp w1 = (w2, r) ->
  acquire_workspace a s =
  let url := make_absolute_str (config_url a) (output_dir a) in
  let s2 := {| now := w2; trace := trace s ++ [EDownload url tmp] |} in
  match r with
  | Ok _ =>
      let local_dir := OsPath.join tmp (Py.slice_from (path (urlparse url)) 1) in
      (s2, Ok {| output_url := url;
                 temp_dir := Some tmp;
                 training_args :=
                   set_dirs a local_dir
                     (if Py.startswith (logging_dir a) (output_dir a)
                      then local_dir ++ Py.slice_from (logging_dir a) (Py.len (output_dir a))
                      else logging_dir a) |})
  | Err e => (s2, Err e)
  end.
Proof.
  intros Hremote Hmk Hdl. unfold acquire_workspace. rewrite Hremote.
  unfold bind, local, call. rewrite Hmk. simpl now. rewrite Hdl.
  destruct r as [[]|e]; reflexivity.
Qed.

(** C8: for an output location without direct local access, workspace
    acquisition creates a fresh temporary directory, downloads the remote
    output location into it, and works in that directory joined with the
    path of the output location (less its leading [/]); a logging
    directory given below the output directory is moved below the
    workspace, with the same suffix. *)
Theorem acquire_workspace_mirrors (a : Args) (s : state X) (w1 w2 : world X) (tmp : str) :
  let url := make_absolute_str (config_url a) (output_dir a) in
  get_direct_access url = None ->
  mkdtemp (now s) = (w1, Ok tmp) ->
  download_folder url tmp w1 = (w2, Ok tt) ->
  exists ws,
    acquire_workspace a s =
      ({| now := w2; trace := trace s ++ [EDownload url tmp] |}, Ok ws) /\
    stat (now s) tmp = None /\
    isdir w1 tmp = true /\
    output_url ws = url /\
    temp_dir ws = Some tmp /\
    output_dir (training_args ws) =
      OsPath.join tmp (Py.slice_from (path (urlparse url)) 1) /\
    (forall seg,
       path (urlparse url) = OsPath.sep :: seg ->
       Py.startswith seg [OsPath.sep] = false ->
       tmp <> [] -> Py.endswith tmp [OsPath.sep] = false ->
       output_dir (training_args ws) = tmp ++ OsPath.sep :: seg) /\
    (forall suffix,
       logging_dir a = output_dir a ++ suffix ->
       logging_dir (training_args ws) = output_dir (training_args ws) ++ suffix).
Proof.
  intros url Hremote Hmk Hdl.
  destruct (mkdtemp_from_fresh _ _ _ _ Hmk) as (Hfresh & Hmade & _).
  rewrite (acquire_workspace_remote a s w1 w2 tmp (Ok tt) Hremote Hmk Hdl).
  cbv zeta. fold url. eexists. split; [reflexivity|].
  split; [exact Hfresh|]. split; [exact (isdir_of_stat _ _ _ Hmade)|].
  cbn [output_url temp_dir training_args set_dirs output_dir logging_dir].
  repeat split.
  - intros seg Hpath Hrel Hne Hend. rewrite Hpath.
    change (Py.slice_from (OsPath.sep :: seg) 1) with seg.
    unfold OsPath.join. rewrite Hrel, Hend. now destruct tmp.
  - intros suffix Hlog. rewrite Hlog, startswith_app, slice_from_len_app. reflexivity.
Qed.

(** C10: for an output location without direct local access, when the
    download raises, [main] raises the same error having called nothing
    but the download -- no training, evaluation or prediction, no remote
    listing or deletion, no upload -- and having removed nothing: the
    machine is as the download left it, with the temporary directory that
    was created unless the download itself removed it. *)
Theorem download_failure_aborts (a : Args) (s : state X) (w1 w2 : world X)
  (tmp : str) (e : exn) :
  let url := make_absolute_str (config_url a) (output_dir a) in
  get_direct_access url = None ->
  mkdtemp (now s) = (w1, Ok tmp) ->
  download_folder url tmp w1 = (w2, Err e) ->
  main a s = ({| now := w2; trace := trace s ++ [EDownload url tmp] |}, Err e) /\
  isdir w1 tmp = true /\
  (isdir w2 tmp = isdir w1 tmp -> isdir (now (fst (main a s))) tmp = true).
Proof.
  intros url Hremote Hmk Hdl.
  destruct (mkdtemp_from_fresh _ _ _ _ Hmk) as (_ & Hmade & _).
  apply isdir_of_stat in Hmade.
  assert (Hmain : main a s =
                  ({| now := w2; trace := trace s ++ [EDownload url tmp] |}, Err e)).
  { unfold main. unfold bind at 1.
    now rewrite (acquire_workspace_remote a s w1 w2 tmp (Err e) Hremote Hmk Hdl). }
  split; [exact Hmain|]. split; [exact Hmade|].
  intros Hkeep. rewrite Hmain. simpl. congruence.
Qed.

End MainFacts.

(** ** The theorems at work on the sample environment *)

Section SampleRuns.

Import Sample.

#[local] Existing Instance libs.

(** C1, as stated, fails: with an upload that raises, [main] raises the
    upload's error and the temporary directory [/tmp/tmpa1] is still on
    disk. *)
Lemma upload_failure_leaves_temp_dir :
  ~ @cleans_up_when_upload_fails libs remote (collaborators true false)
      mirrored_job start.
Proof.
  intros H.
  edestruct H as [_ Hgone];
    [vm_compute; reflexivity | reflexivity | vm_compute; reflexivity
    | vm_compute; reflexivity | vm_compute; reflexivity | ].
  vm_compute in Hgone. discriminate Hgone.
Qed.

Example upload_failure_run :
  let out := @main libs remote (collaborators true false) mirrored_job start in
  snd out = Err (Raised 2) /\
  isdir (now (fst out)) (lit "/tmp/tmpa1") = true /\
  trace (fst out) =
    [EDownload (lit "s3://bucket/run1") (lit "/tmp/tmpa1");
     ESetup; ETrain None; EEvaluate; EPredict; EFinish;
     EList (lit "s3://bucket/run1");
     EDelete (lit "s3://bucket") (lit "/run1/checkpoint-5/model.bin");
     EUpload (lit "/tmp/tmpa1/run1") (lit "s3://bucket/run1")].
Proof. vm_compute. repeat split. Qed.

(** C4 on [s3://bucket/config.json] and [data/train.json]. *)
Lemma make_absolute_remote_witness :
  get_direct_access (lit "s3://bucket/config.json") = None /\
  Py.endswith (lit "s3://bucket/config.json") [OsPath.sep] = false /\
  In OsPath.sep (lit "s3://bucket/config.json") /\
  is_absolute (lit "data/train.json") = false /\
  exists dir_url file_name,
    lit "s3://bucket/config.json" = dir_url ++ file_name /\
    Py.endswith dir_url [OsPath.sep] = true /\
    ~ In OsPath.sep file_name /\
    make_absolute (Some (lit "s3://bucket/config.json")) (One (lit "data/train.json")) =
      One (dir_url ++ lit "data/train.json") /\
    make_absolute (Some (lit "s3://bucket/config.json"))
                  (Many [lit "data/dev.json"; lit "/srv/test.json"]) =
      Many (map (fun q => if is_absolute q then q else dir_url ++ q)
                [lit "data/dev.json"; lit "/srv/test.json"]).
Proof.
  assert (Hin : In OsPath.sep (lit "s3://bucket/config.json"))
    by (simpl; tauto).
  repeat (split; [first [reflexivity | exact Hin]|]).
  apply (make_absolute_remote (lit "s3://bucket/config.json") (lit "data/train.json")
           [lit "data/dev.json"; lit "/srv/test.json"]);
    first [reflexivity | exact Hin].
Defined.

Example make_absolute_end_to_end :
  make_absolute_str (Some (lit "s3://bucket/config.json")) (lit "data/train.json") =
  lit "s3://bucket/data/train.json".
Proof. reflexivity. Qed.

(** C5 on a mixed list of targets. *)
Lemma make_absolute_idempotent_witness :
  let origin := Some (lit "s3://bucket/config.json") in
  let x := Many [lit "data/train.json"; lit "/srv/test.json"; lit "gs://b/dev.json"] in
  all_absolute (make_absolute origin x) = true /\
  make_absolute origin (make_absolute origin x) = make_absolute origin x.
Proof.
  split; [reflexivity|].
  apply (make_absolute_idempotent (Some (lit "s3://bucket/config.json"))
           (Many [lit "data/train.json"; lit "/srv/test.json"; lit "gs://b/dev.json"])).
  reflexivity.
Defined.


(** C6 on the sample workspace directory. *)
Lemma delete_checkpoints_spec_witness :
  let a := job (lit "/out") in
  let s := initial (machine trained bucket) in
  stat (now s) (output_dir a) = Some (Dir trained) /\
  wf_listing trained = true /\
  exists s',
    delete_checkpoints a s = (s', Ok tt) /\
    entries (now s') (output_dir a) =
      [(lit "checkpoint-7", File); (lit "model.bin", File)] /\
    delete_checkpoints a s' = (s', Ok tt).
Proof.
  split; [reflexivity|]. split; [reflexivity|].
  destruct (delete_checkpoints_spec (job (lit "/out")) (initial (machine trained bucket))
              trained eq_refl eq_refl)
    as (s' & Hrun & _ & Hentries & _ & _ & _ & _ & Hagain).
  exists s'. repeat split; assumption.
Defined.

(** C9 on the regular file [checkpoint-7] of the sample workspace. *)
Lemma delete_checkpoints_keeps_files_witness :
  let a := job (lit "/out") in
  let s := initial (machine trained bucket) in
  In (lit "checkpoint-7", File) trained /\
  matches_checkpoint (lit "checkpoint-7") = true /\
  exists s',
    delete_checkpoints a s = (s', Ok tt) /\
    In (lit "checkpoint-7", File) (entries (now s') (output_dir a)) /\
    stat (now s') (OsPath.join (output_dir a) (lit "checkpoint-7")) = Some File.
Proof.
  assert (Hin : In (lit "checkpoint-7", File) trained) by (simpl; tauto).
  split; [exact Hin|]. split; [reflexivity|].
  apply (delete_checkpoints_keeps_files (job (lit "/out"))
           (initial (machine trained bucket)) trained (lit "checkpoint-7"));
    first [reflexivity | exact Hin].
Defined.

(** C8 on the sample job: the workspace is [/tmp/tmpa1/run1] and the
    logging directory [run1/runs] becomes [/tmp/tmpa1/run1/runs]. *)
Lemma acquire_workspace_mirrors_witness :
  exists ws s1,
    @acquire_workspace libs remote (collaborators true true) mirrored_job start =
      (s1, Ok ws) /\
    trace s1 = [EDownload (lit "s3://bucket/run1") (lit "/tmp/tmpa1")] /\
    temp_dir ws = Some (lit "/tmp/tmpa1") /\
    output_dir (training_args ws) = lit "/tmp/tmpa1/run1" /\
    logging_dir (training_args ws) = lit "/tmp/tmpa1/run1/runs".
Proof.
  pose (C := collaborators true true).
  pose (w1 := fst (@mkdtemp remote C (now start))).
  assert (Hmk : @mkdtemp remote C (now start) = (w1, Ok (lit "/tmp/tmpa1")))
    by (vm_compute; reflexivity).
  assert (Hdl : @download_folder remote C
                  (make_absolute_str (config_url mirrored_job) (output_dir mirrored_job))
                  (lit "/tmp/tmpa1") w1 = (w1, Ok tt))
    by (vm_compute; reflexivity).
  destruct (@acquire_workspace_mirrors libs remote C mirrored_job start w1 w1
              (lit "/tmp/tmpa1") eq_refl Hmk Hdl)
    as (ws & Hacq & _ & _ & _ & Htmp & Hout & _ & Hlog).
  exists ws. eexists. split; [exact Hacq|]. split; [reflexivity|].
  split; [exact Htmp|]. split; [rewrite Hout; reflexivity|].
  rewrite (Hlog (lit "/runs") eq_refl), Hout. reflexivity.
Defined.

(** C10 on the sample job with a download that raises. *)
Lemma download_failure_aborts_witness :
  let out := @main libs remote (collaborators false true) mirrored_job start in
  snd out = Err (Raised 1) /\
  trace (fst out) = [EDownload (lit "s3://bucket/run1") (lit "/tmp/tmpa1")] /\
  isdir (now (fst out)) (lit "/tmp/tmpa1") = true.
Proof.
  pose (C := collaborators false true).
  pose (w1 := fst (@mkdtemp remote C (now start))).
  assert (Hmk : @mkdtemp remote C (now start) = (w1, Ok (lit "/tmp/tmpa1")))
    by (vm_compute; reflexivity).
  assert (Hdl : @download_folder remote C
                  (make_absolute_str (config_url mirrored_job) (output_dir mirrored_job))
                  (lit "/tmp/tmpa1") w1 = (w1, Err (Raised 1)))
    by (vm_compute; reflexivity).
  destruct (@download_failure_aborts libs remote C mirrored_job start w1 w1
              (lit "/tmp/tmpa1") (Raised 1) eq_refl Hmk Hdl)
    as (Hmain & _ & Hkept).
  cbv zeta. fold C. split; [now rewrite Hmain|]. split; [now rewrite Hmain|].
  now apply Hkept.
Defined.



(** The whole job written with [run1/]: nothing is deleted on remote
    storage, which holds the checkpoint at the end as it did before. *)
Example trailing_slash_run :
  let out := @main libs remote (collaborators true true) slash_job start in
  snd out = Ok tt /\
  trace (fst out) =
    [EDownload (lit "s3://bucket/run1/") (lit "/tmp/tmpa1");
     ESetup; ETrain None; EEvaluate; EPredict; EFinish;
     EList (lit "s3://bucket/run1/");
     EUpload (lit "/tmp/tmpa1/run1/") (lit "s3://bucket/run1/")] /\
  ext (now (fst out)) = bucket.
Proof. vm_compute. repeat split. Qed.

(** C1, as amended, on the sample job with an upload that raises. *)
Lemma upload_failure_skips_cleanup_witness :
  let C := collaborators true false in
  let s1 := fst (@acquire_workspace libs remote C mirrored_job start) in
  let body :=
    (last_checkpoint <- detect_last_checkpoint (training_args workspace) ;;
     @run_job remote C (training_args workspace) last_checkpoint) in
  let out := try_finally body (@finalize libs remote C workspace) s1 in
  snd out = Err (Raised 2) /\
  isdir (now (fst out)) (lit "/tmp/tmpa1") = true.
Proof.
  intros C s1 body out.
  pose (s2 := fst (body s1)).
  pose (s3 := fst (@remote_prune libs remote C workspace s2)).
  assert (Hbody : body s1 = (s2, Ok tt)) by (vm_compute; reflexivity).
  assert (Hprune : @remote_prune libs remote C workspace s2 = (s3, Ok tt))
    by (vm_compute; reflexivity).
  assert (Hup : @upload_folder remote C (output_dir (training_args workspace))
                  (output_url workspace) (now s3) = (now s3, Err (Raised 2)))
    by (vm_compute; reflexivity).
  destruct (@upload_failure_skips_cleanup libs remote C unit body workspace s1 s2 s3
              (Ok tt) (lit "/tmp/tmpa1") (now s3) eq_refl Hbody Hprune)
    as [Hfail _].
  unfold out. rewrite (Hfail (Raised 2) Hup). split; [reflexivity|].
  vm_compute. reflexivity.
Defined.

(** The scenarios of resume detection. *)
Example resume_from_empty_directory :
  resume_decision (job (lit "/out")) (initial (machine [] bucket)) = FreshStart.
Proof. reflexivity. Qed.

Example resume_from_latest_checkpoint :
  resume_decision (job (lit "/out"))
    (initial (machine [(lit "checkpoint-100", Dir []); (lit "checkpoint-300", Dir [])]
                      bucket)) =
  ResumeFrom (lit "/out/checkpoint-300").
Proof. reflexivity. Qed.

(** The whole job on the sample environment: the remote checkpoint is
    deleted before the upload, and the temporary directory is gone at the
    end. *)
Example mirrored_run :
  let out := @main libs remote (collaborators true true) mirrored_job start in
  snd out = Ok tt /\
  trace (fst out) =
    [EDownload (lit "s3://bucket/run1") (lit "/tmp/tmpa1");
     ESetup; ETrain None; EEvaluate; EPredict; EFinish;
     EList (lit "s3://bucket/run1");
     EDelete (lit "s3://bucket") (lit "/run1/checkpoint-5/model.bin");
     EUpload (lit "/tmp/tmpa1/run1") (lit "s3://bucket/run1")] /\
  isdir (now (fst out)) (lit "/tmp/tmpa1") = false /\
  ext (now (fst out)) =
    [lit "s3://bucket/run1/model.bin"; lit "s3://bucket/run10/checkpoint-5/model.bin"].
Proof. vm_compute. repeat split. Qed.

End SampleRuns.

(** ** File extensions and language codes *)

Lemma split_pieces_no_sep (c : ascii) (s : str) :
  Forall (fun p => ~ In c p) (Py.split c s).
Proof.
  induction s as [|a s IH]; simpl.
  - constructor; [intros []|constructor].
  - unfold Py.char_eqb. destruct (Ascii.eqb a c) eqn:E.
    + constructor; [intros []|exact IH].
    + destruct (Py.split c s) as [|w ws]; [constructor; [|constructor]|].
      * intros [H|[]]. subst. now rewrite Ascii.eqb_refl in E.
      * inversion IH as [|? ? Hw Hws]; subst. constructor; [|exact Hws].
        intros [H|H]; [|contradiction]. subst. now rewrite Ascii.eqb_refl in E.
Qed.

(** Splitting and joining with the same separator gives the string back. *)
Lemma sep_join_split (c : ascii) (s : str) : sep_join c (Py.split c s) = s.
Proof.
  induction s as [|a s IH]; simpl; [reflexivity|].
  destruct (Py.char_eqb a c) eqn:E.
  - apply Ascii.eqb_eq in E. subst a.
    destruct (Py.split c s) as [|w ws] eqn:Es; [now apply split_nonempty in Es|].
    simpl. now rewrite <- IH.
  - destruct (Py.split c s) as [|w ws] eqn:Es; [now apply split_nonempty in Es|].
    rewrite <- IH. destruct ws; reflexivity.
Qed.

Lemma sep_join_last (c : ascii) (front : list str) (x : str) :
  front <> [] -> sep_join c (front ++ [x]) = sep_join c front ++ c :: x.
Proof.
  induction front as [|p front IH]; [contradiction|]. intros _.
  destruct front as [|q front]; [reflexivity|].
  change (sep_join c ((p :: q :: front) ++ [x]))
    with (p ++ c :: sep_join c ((q :: front) ++ [x])).
  rewrite IH by discriminate.
  change (sep_join c (p :: q :: front)) with (p ++ c :: sep_join c (q :: front)).
  now rewrite <- app_assoc.
Qed.

(** The last piece of a split: what follows the last separator. *)
Lemma split_last (c : ascii) (s : str) :
  exists pre, s = pre ++ last (Py.split c s) [] /\
              (pre = [] \/ Py.endswith pre [c] = true) /\
              ~ In c (last (Py.split c s) []).
Proof.
  pose proof (sep_join_split c s) as Hjoin.
  pose proof (split_pieces_no_sep c s) as Hfree.
  destruct (exists_last (split_nonempty c s)) as (front & x & Hsplit).
  rewrite Hsplit in *. rewrite last_last.
  assert (Hx : ~ In c x).
  { rewrite Forall_forall in Hfree. apply Hfree. apply in_or_app. right. now left. }
  destruct front as [|p front].
  - exists []. simpl in Hjoin. split; [now rewrite Hjoin|]. split; [now left|exact Hx].
  - rewrite sep_join_last in Hjoin by discriminate.
    exists (sep_join c (p :: front) ++ [c]). split; [|split; [|exact Hx]].
    + now rewrite <- app_assoc.
    + right. apply endswith_spec. now eexists.
Qed.

(** The first piece of a split: what precedes the first separator. *)
Lemma split_first (c : ascii) (p r : str) :
  ~ In c p -> hd [] (Py.split c (p ++ c :: r)) = p /\ hd [] (Py.split c p) = p.
Proof.
  intros Hp.
  assert (Hfree : forallb (fun a => negb (Py.char_eqb a c)) p = true).
  { apply forallb_forall. intros a Ha. unfold Py.char_eqb.
    destruct (Ascii.eqb a c) eqn:E; [|reflexivity].
    apply Ascii.eqb_eq in E. now subst. }
  rewrite split_app_sep, (split_no_sep c p Hfree). split; reflexivity.
Qed.

Section DataArgsFacts.

Import DataArgs.

(** X1: [get_extension] returns what follows the last dot of the file
    name -- the whole name when it has no dot --, and that has no dot in
    it; of a list of names only the first is looked at. *)
Theorem get_extension_after_last_dot (f : str) (rest : list str) :
  get_extension (Many (f :: rest)) = get_extension (One f) /\
  exists stem extension,
    get_extension (One f) = Done extension /\
    f = stem ++ extension /\
    (stem = [] \/ Py.endswith stem (lit ".") = true) /\
    ~ In "."%char extension.
Proof.
  split; [reflexivity|].
  destruct (split_last "."%char f) as (pre & Hf & Hpre & Hext).
  exists pre, (last (Py.split "." f) []). repeat split; assumption.
Qed.

Lemma check_extension_done (file : option target) (msg : str) :
  check_extension file msg = Done tt <->
  (forall f, file = Some f ->
     exists extension, get_extension f = Done extension /\ In extension valid_extensions).
Proof.
  unfold check_extension. destruct file as [f|]; [|split; [intros _ g Hg; discriminate Hg|reflexivity]].
  split.
  - intros H g Hg. injection Hg as <-.
    destruct (get_extension f) as [ext|e]; [|discriminate]. cbn [and_then] in H.
    destruct (mem ext valid_extensions) eqn:E; [|discriminate].
    exists ext. split; [reflexivity|]. now apply mem_in.
  - intros H. destruct (H f eq_refl) as (ext & -> & Hin). cbn [and_then].
    apply mem_in in Hin. now rewrite Hin.
Qed.

Lemma check_extension_cases (file : option target) (msg : str) :
  check_extension file msg = Done tt \/ exists e, check_extension file msg = Raise e.
Proof.
  destruct (check_extension file msg) as [[]|e]; [now left|right; now exists e].
Qed.

(** What [post_init] returns when it returns. *)
Lemma post_init_done (d d' : DataTrainingArguments) :
  post_init d = Done d' ->
  is_none (dataset_name d) && is_none (train_file d) && is_none (validation_file d) = false /\
  is_none (source_lang d) || is_none (target_lang d) = false /\
  check_extension (train_file d)
    (lit "`train_file` should be a jsonlines file or text files.") = Done tt /\
  check_extension (validation_file d)
    (lit "`validation_file` should be a jsonlines file or text files.") = Done tt /\
  d' = match val_max_target_length d with
       | None => set_val_max_target_length d (max_target_length d)
       | Some _ => d
       end.
Proof.
  unfold post_init.
  destruct (is_none (dataset_name d) && is_none (train_file d) && is_none (validation_file d));
    [discriminate|].
  destruct (is_none (source_lang d) || is_none (target_lang d)); [discriminate|].
  destruct (check_extension (train_file d) _) as [[]|e]; [|discriminate].
  destruct (check_extension (validation_file d) _) as [[]|e]; [|discriminate].
  simpl. intros H. injection H as <-. repeat split.
Qed.

(** What accepted arguments look like. *)
Lemma post_init_checked (d d' : DataTrainingArguments) :
  post_init d = Done d' ->
  source_lang d <> None /\ target_lang d <> None /\
  (dataset_name d <> None \/ train_file d <> None \/ validation_file d <> None) /\
  (forall f, train_file d = Some f ->
     exists extension, get_extension f = Done extension /\ In extension valid_extensions) /\
  (forall f, validation_file d = Some f ->
     exists extension, get_extension f = Done extension /\ In extension valid_extensions) /\
  d' = set_val_max_target_length d
         (match val_max_target_length d with
          | Some n => Some n
          | None => max_target_length d
          end).
Proof.
  intros H. destruct (post_init_done d d' H) as (Hdata & Hlang & Htrain & Hval & ->).
  apply orb_false_iff in Hlang as [Hs Ht].
  split; [now destruct (source_lang d)|]. split; [now destruct (target_lang d)|].
  split.
  { destruct (dataset_name d); [left; discriminate|].
    destruct (train_file d); [right; left; discriminate|].
    destruct (validation_file d); [right; right; discriminate|discriminate]. }
  split; [exact (proj1 (check_extension_done _ _) Htrain)|].
  split; [exact (proj1 (check_extension_done _ _) Hval)|].
  destruct d as [? ? ? ? ? ? ? [v|] ? ? ?]; reflexivity.
Qed.

(** X2: arguments that [__post_init__] accepts name both languages and a
    dataset, a training file or a validation file; the training and
    validation files that are given have one of the extensions [json],
    [jsonl], [txt]; and nothing is changed but [val_max_target_length],
    which takes the value of [max_target_length] when it was not given. *)
Theorem post_init_accepts (d d' : DataTrainingArguments) :
  post_init d = Done d' ->
  source_lang d <> None /\ target_lang d <> None /\
  (dataset_name d <> None \/ train_file d <> None \/ validation_file d <> None) /\
  (forall f, train_file d = Some f ->
     exists extension, get_extension f = Done extension /\ In extension valid_extensions) /\
  (forall f, validation_file d = Some f ->
     exists extension, get_extension f = Done extension /\ In extension valid_extensions) /\
  d' = set_val_max_target_length d
         (match val_max_target_length d with
          | Some n => Some n
          | None => max_target_length d
          end).
Proof. exact (post_init_checked d d'). Qed.

(** X3: [__post_init__] never looks at [test_file]: its outcome is the
    same whatever the test file, whose extension is not checked; and a
    test file alone, without a dataset name, a training or a validation
    file, is refused. *)
Theorem post_init_ignores_test_file (d : DataTrainingArguments) (f : option target) :
  post_init (set_test_file d f) =
  match post_init d with
  | Done d' => Done (set_test_file d' f)
  | Raise e => Raise e
  end /\
  (dataset_name d = None -> train_file d = None -> validation_file d = None ->
   post_init (set_test_file d f) =
   Raise (ValueError (lit "Need either a dataset name or a training/validation file."))).
Proof.
  split.
  - unfold post_init. cbn [set_test_file dataset_name train_file validation_file
                           source_lang target_lang val_max_target_length max_target_length].
    destruct (is_none (dataset_name d) && is_none (train_file d) &&
              is_none (validation_file d)); [reflexivity|].
    destruct (is_none (source_lang d) || is_none (target_lang d)); [reflexivity|].
    destruct (check_extension (train_file d) _) as [[]|e]; [|reflexivity].
    destruct (check_extension (validation_file d) _) as [[]|e]; [|reflexivity].
    simpl. destruct (val_max_target_length d); reflexivity.
  - intros H1 H2 H3. unfold post_init. cbn [set_test_file dataset_name train_file
                                               validation_file].
    now rewrite H1, H2, H3.
Qed.

(** X4: checking again arguments that were accepted accepts them and
    changes nothing. *)
Theorem post_init_idempotent (d d' : DataTrainingArguments) :
  post_init d = Done d' -> post_init d' = Done d'.
Proof.
  intros H. destruct (post_init_done d d' H) as (Hdata & Hlang & Htrain & Hval & ->).
  unfold post_init.
  destruct (val_max_target_length d) as [v|] eqn:Ev.
  - rewrite Hdata, Hlang, Htrain, Hval. simpl. now rewrite Ev.
  - cbn [set_val_max_target_length dataset_name train_file validation_file source_lang
         target_lang val_max_target_length max_target_length].
    rewrite Hdata, Hlang, Htrain, Hval. simpl.
    destruct (max_target_length d); reflexivity.
Qed.

(** X5: for accepted arguments without a dataset name, [extension] is
    bound when [main] reads it: without a test file it is one of [json],
    [jsonl], [txt]; with a test file it is the extension of that file,
    which nothing has checked. *)
Theorem data_extension_bound (d d' : DataTrainingArguments) :
  post_init d = Done d' ->
  dataset_name d = None ->
  (test_file d = None ->
   exists extension, data_extension d' = Done extension /\ In extension valid_extensions) /\
  (forall f, test_file d = Some f -> data_extension d' = get_extension f).
Proof.
  intros H Hname.
  destruct (post_init_checked d d' H) as (_ & _ & Hgiven & Htrain & Hval & ->).
  unfold data_extension.
  cbn [set_val_max_target_length train_file validation_file test_file].
  split.
  - intros Htest. rewrite Htest.
    destruct (validation_file d) as [v|] eqn:Ev.
    + destruct (Hval v eq_refl) as (ext & Hext & Hin).
      destruct (train_file d) as [t|] eqn:Et.
      * destruct (Htrain t eq_refl) as (ext' & Hext' & _). rewrite Hext'. simpl.
        rewrite Hext. simpl. now exists ext.
      * simpl. rewrite Hext. simpl. now exists ext.
    + destruct (train_file d) as [t|] eqn:Et.
      * destruct (Htrain t eq_refl) as (ext & Hext & Hin). rewrite Hext. simpl.
        now exists ext.
      * exfalso. destruct Hgiven as [Hg|[Hg|Hg]]; now apply Hg.
  - intros f Htest. rewrite Htest.
    assert (Hfirst : forall file : option target,
               (forall g, file = Some g ->
                  exists extension, get_extension g = Done extension /\
                                    In extension valid_extensions) ->
               forall e0 : option str,
               exists e1, match file with
                          | None => Done e0
                          | Some g => and_then (get_extension g) (fun e => Done (Some e))
                          end = Done e1).
    { intros [g|] Hg e0; [|now exists e0].
      destruct (Hg g eq_refl) as (ext & -> & _). now eexists. }
    destruct (Hfirst (train_file d) Htrain None) as (e1 & ->). simpl.
    destruct (Hfirst (validation_file d) Hval e1) as (e2 & ->). simpl.
    destruct (get_extension f); reflexivity.
Qed.

(** X6: the length of generation in evaluation and prediction is
    [generation_max_length] when given, else [val_max_target_length] when
    given, else [max_target_length]. *)
Theorem generation_length_fallback (d d' : DataTrainingArguments)
  (generation_max_length : option Z) :
  post_init d = Done d' ->
  generation_length generation_max_length d' =
  match generation_max_length, val_max_target_length d with
  | Some n, _ => Some n
  | None, Some n => Some n
  | None, None => max_target_length d
  end.
Proof.
  intros H. destruct (post_init_done d d' H) as (_ & _ & _ & _ & ->).
  unfold generation_length. destruct generation_max_length; [reflexivity|].
  destruct (val_max_target_length d) eqn:E; [exact E|reflexivity].
Qed.

(** X7: after the defaulting of lines 366-369 at least one of training,
    evaluation and prediction is requested -- the request is unchanged
    when it named one, and defaulting again changes nothing --, so the
    return on "nothing to do" of lines 600-602 is never taken. *)
Theorem default_actions_do_something (do_train do_eval do_predict : bool) :
  let '(t, e, p) := default_actions do_train do_eval do_predict in
  t || e || p = true /\
  (do_train || do_eval || do_predict = true -> (t, e, p) = (do_train, do_eval, do_predict)) /\
  default_actions t e p = (t, e, p) /\
  forall raw_datasets configure tokenize,
    prepare_datasets t e p raw_datasets configure tokenize <> Done [].
Proof.
  destruct do_train, do_eval, do_predict; simpl;
    (split; [reflexivity|]; split; [try reflexivity; discriminate|];
     split; [reflexivity|]);
    intros raw configure tokenize; unfold prepare_datasets, get_split, require_split;
    destruct (has_split raw Train), (has_split raw Validation), (has_split raw Test);
    simpl; try discriminate;
    destruct configure; simpl; try discriminate;
    destruct (tokenize Train); simpl; try discriminate;
    destruct (tokenize Validation); simpl; try discriminate;
    destruct (tokenize Test); simpl; discriminate.
Qed.

(** X8: the error [--do_train requires a train dataset] is never raised:
    when training is requested and there is no train split, reading its
    column names raises [KeyError] first.  The like errors for validation
    and test are raised only when an earlier action is requested; for the
    first requested action a missing split is a [KeyError]. *)
Theorem missing_first_split_is_key_error (do_train do_eval do_predict : bool)
  (raw_datasets : list dataset_split) (configure : option nat)
  (tokenize : dataset_split -> option nat) :
  let run := prepare_datasets do_train do_eval do_predict raw_datasets configure tokenize in
  run <> Raise (ValueError (lit "--do_train requires a train dataset")) /\
  (run = Raise (ValueError (lit "--do_eval requires a validation dataset")) ->
   do_train = true) /\
  (run = Raise (ValueError (lit "--do_predict requires a test dataset")) ->
   do_train = true \/ do_eval = true) /\
  (do_train = true -> has_split raw_datasets Train = false ->
   run = Raise (KeyError (lit "train"))) /\
  (do_train = false -> do_eval = true -> has_split raw_datasets Validation = false ->
   run = Raise (KeyError (lit "validation"))) /\
  (do_train = false -> do_eval = false -> do_predict = true ->
   has_split raw_datasets Test = false ->
   run = Raise (KeyError (lit "test"))).
Proof.
  cbv zeta. unfold prepare_datasets, get_split, require_split.
  destruct do_train, do_eval, do_predict;
    destruct (has_split raw_datasets Train), (has_split raw_datasets Validation),
      (has_split raw_datasets Test);
    destruct configure; simpl;
    destruct (tokenize Train); simpl;
    destruct (tokenize Validation); simpl;
    destruct (tokenize Test); simpl;
    repeat split; intros; try discriminate; try reflexivity; auto.
Qed.

(** X9: labels without [-100] survive the round trip: masking the padding
    for the loss, then unmasking it before decoding, gives them back,
    whatever the padding options. *)
Theorem labels_round_trip (d : DataTrainingArguments) (pad_token_id : Z)
  (labels : list (list Z)) :
  Forall (Forall (fun l => l <> -100)) labels ->
  metric_labels d pad_token_id (preprocess_labels d pad_token_id labels) = labels.
Proof.
  intros Hfree. unfold metric_labels, preprocess_labels.
  assert (Hunmask : map (map (fun l => if negb (l =? -100) then l else pad_token_id)) labels
                    = labels).
  { rewrite <- (map_id labels) at 2. apply map_ext_in. intros row Hrow.
    rewrite Forall_forall in Hfree. specialize (Hfree row Hrow).
    rewrite <- (map_id row) at 2. apply map_ext_in. intros l Hl.
    rewrite Forall_forall in Hfree. specialize (Hfree l Hl).
    destruct (Z.eqb_spec l (-100)); [contradiction|reflexivity]. }
  destruct (ignore_pad_token_for_loss d); [|now destruct (pad_to_max_length d)].
  destruct (pad_to_max_length d); simpl; [|exact Hunmask].
  rewrite map_map. rewrite <- (map_id labels) at 2. apply map_ext_in. intros row Hrow.
  rewrite Forall_forall in Hfree. specialize (Hfree row Hrow).
  rewrite map_map. rewrite <- (map_id row) at 2. apply map_ext_in. intros l Hl.
  rewrite Forall_forall in Hfree. specialize (Hfree l Hl).
  destruct (Z.eqb_spec l pad_token_id) as [->|Hne]; simpl.
  - reflexivity.
  - destruct (Z.eqb_spec l (-100)); [contradiction|reflexivity].
Qed.

(** X10: when padding to the maximal length and ignoring it in the loss,
    the labels keep their shape, no padding id is left in them, and every
    other id stays in its row. *)
Theorem preprocess_labels_masks_padding (d : DataTrainingArguments) (pad_token_id : Z)
  (labels : list (list Z)) :
  pad_to_max_length d = true -> ignore_pad_token_for_loss d = true ->
  pad_token_id <> -100 ->
  let masked := preprocess_labels d pad_token_id labels in
  map (@List.length Z) masked = map (@List.length Z) labels /\
  Forall (Forall (fun l => l <> pad_token_id)) masked /\
  (forall row i l, nth_error labels row = Some i -> In l i -> l <> pad_token_id ->
     exists j, nth_error masked row = Some j /\ In l j).
Proof.
  intros Hpad Hignore Hne. cbv zeta. unfold preprocess_labels. rewrite Hpad, Hignore.
  simpl. split; [|split].
  - rewrite map_map. apply map_ext. intros row. apply length_map.
  - apply Forall_forall. intros row Hrow. apply in_map_iff in Hrow as (r & <- & _).
    apply Forall_forall. intros l Hl. apply in_map_iff in Hl as (x & <- & _).
    destruct (Z.eqb_spec x pad_token_id); simpl; congruence.
  - intros row i l Hrow Hl Hkeep. eexists. split.
    + rewrite nth_error_map, Hrow. reflexivity.
    + apply in_map_iff. exists l. split; [|exact Hl].
      destruct (Z.eqb_spec l pad_token_id); [contradiction|reflexivity].
Qed.

Lemma skipn_nth_error {A} (l : list A) :
  forall k x, nth_error l k = Some x -> skipn k l = x :: skipn (S k) l.
Proof.
  induction l as [|a l IH]; intros [|k] x H; simpl in *; try discriminate.
  - now injection H as ->.
  - now apply IH.
Qed.

Lemma select_seq {A} (dataset : list A) (n : nat) :
  forall k, (k + n <= List.length dataset)%nat ->
  select dataset (map Z.of_nat (seq k n)) = Done (firstn n (skipn k dataset)).
Proof.
  induction n as [|n IH]; intros k Hk; [reflexivity|].
  cbn [seq map select].
  destruct (Z.ltb_spec (Z.of_nat k) 0) as [Hneg|_]; [lia|].
  rewrite Nat2Z.id.
  destruct (nth_error dataset k) as [row|] eqn:Erow.
  - rewrite (IH (S k)) by lia. cbn [and_then].
    now rewrite (skipn_nth_error dataset k row Erow).
  - apply nth_error_None in Erow. lia.
Qed.

Lemma limit_samples_firstn {A} (m : Z) (dataset : list A) :
  limit_samples (Some m) dataset =
  Done (firstn (Z.to_nat (Z.min (Z.of_nat (List.length dataset)) m)) dataset).
Proof.
  unfold limit_samples, py_range.
  rewrite (select_seq dataset _ 0%nat) by lia. reflexivity.
Qed.

(** X11: the sample limit never fails and keeps a prefix of the dataset:
    all of it without a limit; [min(len, limit)] rows for a limit that is
    not negative, and the number of samples reported for that many rows
    is that number; no row for a negative limit, which is then itself
    reported as the number of samples. *)
Theorem limit_samples_keeps_prefix {A} (limit : option Z) (dataset : list A) :
  exists kept dropped,
    limit_samples limit dataset = Done kept /\
    dataset = kept ++ dropped /\
    let n := Z.of_nat (List.length kept) in
    match limit with
    | None => kept = dataset /\ reported_samples limit n = n
    | Some m =>
        n = Z.max 0 (Z.min (Z.of_nat (List.length dataset)) m) /\
        (0 <= m -> reported_samples limit n = n) /\
        (m < 0 -> kept = [] /\ reported_samples limit n = m)
    end.
Proof.
  destruct limit as [m|].
  - set (k := Z.to_nat (Z.min (Z.of_nat (List.length dataset)) m)).
    exists (firstn k dataset), (skipn k dataset).
    split; [apply limit_samples_firstn|]. split; [symmetry; apply firstn_skipn|].
    cbv zeta. rewrite length_firstn. unfold reported_samples, k.
    split; [lia|]. split; [lia|].
    intros Hneg. split; [|lia].
    replace (Z.to_nat (Z.min (Z.of_nat (List.length dataset)) m)) with 0%nat by lia.
    reflexivity.
  - exists dataset, []. split; [reflexivity|]. split; [now rewrite app_nil_r|].
    cbv zeta. split; [reflexivity|]. unfold reported_samples. lia.
Qed.

(** The language key is read off the part before the first underscore. *)
Lemma language_key_prefix (Lang : str -> option (str * str)) (code rest : str) :
  ~ In "_"%char code ->
  language_key Lang (code ++ "_"%char :: rest) = language_key Lang code.
Proof.
  intros Hfree. unfold language_key.
  destruct (split_first "_"%char code rest Hfree) as [-> ->]. reflexivity.
Qed.

(** X12: the language key depends only on what precedes the first
    underscore of the language id: a script or region suffix is ignored. *)
Theorem language_key_ignores_suffix (Lang : str -> option (str * str)) (code rest : str) :
  ~ In "_"%char code ->
  language_key Lang (code ++ "_"%char :: rest) = language_key Lang code.
Proof. exact (language_key_prefix Lang code rest). Qed.

Lemma lstrip_spec (s : str) :
  exists l, s = l ++ lstrip s /\ forallb is_space l = true /\
            (forall a rest, lstrip s = a :: rest -> is_space a = false).
Proof.
  induction s as [|a s (l & Hs & Hl & Hfirst)]; simpl.
  - exists []. repeat split. discriminate.
  - destruct (is_space a) eqn:E.
    + exists (a :: l). simpl. rewrite E, Hl. repeat split; [now f_equal|exact Hfirst].
    + exists []. repeat split. intros b rest H. injection H as <- _. exact E.
Qed.

Lemma lstrip_fixed (s : str) :
  (forall a rest, s = a :: rest -> is_space a = false) -> lstrip s = s.
Proof.
  destruct s as [|a s]; [reflexivity|]. intros H. simpl.
  now rewrite (H a s eq_refl).
Qed.

Lemma lstrip_keeps_end (s : str) (a : ascii) (front : str) :
  lstrip s = front ++ [a] -> exists front', s = front' ++ [a].
Proof.
  intros H. destruct (lstrip_spec s) as (l & Hs & _ & _).
  exists (l ++ front). now rewrite Hs, H, app_assoc.
Qed.

(** [strip] removes white space at both ends, and nothing else. *)
Lemma strip_spec (s : str) :
  exists l r, s = l ++ strip s ++ r /\
              forallb is_space l = true /\ forallb is_space r = true /\
              trimmed (strip s).
Proof.
  unfold strip.
  destruct (lstrip_spec s) as (l & Hs & Hl & Hfirst).
  destruct (lstrip_spec (rev (lstrip s))) as (r & Hr & Hrs & Hlast).
  set (core := lstrip (rev (lstrip s))) in *.
  assert (Hcore : lstrip s = rev core ++ rev r).
  { rewrite <- (rev_involutive (lstrip s)), Hr. apply rev_app_distr. }
  exists l, (rev r). split; [|split; [exact Hl|split]].
  - transitivity (l ++ lstrip s); [exact Hs|now rewrite Hcore].
  - rewrite forallb_forall in *. intros a Ha. apply Hrs. now apply in_rev.
  - split.
    + intros a rest H. apply (Hfirst a (rest ++ rev r)). now rewrite Hcore, H.
    + intros a front H. apply (Hlast a (rev front)).
      rewrite <- (rev_involutive core), H, rev_app_distr. reflexivity.
Qed.

Lemma dict_get_set_same {V} (k : str) (v : V) (d : list (str * V)) :
  dict_get k (dict_set k v d) = Some v.
Proof.
  induction d as [|[k' v'] d IH]; simpl; [now rewrite str_eqb_refl|].
  destruct (Py.str_eqb k' k) eqn:E; simpl; now rewrite E.
Qed.

(** X13: [load_text_dataset] pairs the lines of the two files up to the
    length of the shorter one, silently leaving out the rest; each example
    holds the stripped target line under the target key and, when the two
    keys differ, the stripped source line under the source key; when the
    keys are equal the example holds the target line only. *)
Theorem load_text_dataset_pairs_lines (src_lang trg_lang : str)
  (src_file trg_file : list str) :
  let data := load_text_dataset src_lang trg_lang src_file trg_file in
  List.length data = Nat.min (List.length src_file) (List.length trg_file) /\
  forall i s t,
    nth_error src_file i = Some s -> nth_error trg_file i = Some t ->
    exists example,
      nth_error data i = Some example /\
      dict_get trg_lang example = Some (strip t) /\
      (src_lang <> trg_lang ->
       example = [(src_lang, strip s); (trg_lang, strip t)]) /\
      (src_lang = trg_lang -> example = [(trg_lang, strip t)]).
Proof.
  cbv zeta. unfold load_text_dataset. split.
  - now rewrite length_map, length_combine.
  - intros i s t Hs Ht. eexists. split.
    + rewrite nth_error_map.
      assert (Hc : nth_error (combine src_file trg_file) i = Some (s, t)).
      { revert i trg_file Hs Ht. induction src_file as [|a src IH]; intros [|i] [|b trg];
          simpl; try discriminate.
        - now intros [= ->] [= ->].
        - apply IH. }
      rewrite Hc. reflexivity.
    + cbn [fst snd]. split; [apply dict_get_set_same|]. split.
      * intros Hne. simpl. apply str_eqb_neq in Hne. now rewrite Hne.
      * intros ->. simpl. now rewrite str_eqb_refl.
Qed.

(** X14: two language ids with the same part before the underscore (one
    language in two scripts) get the same key, and the text dataset
    loaded under that key holds no source line at all: each example is
    the target line alone. *)
Theorem same_language_loses_source (Lang : str -> option (str * str))
  (code script1 script2 key : str) (src_file trg_file : list str) :
  ~ In "_"%char code ->
  language_key Lang (code ++ "_"%char :: script1) = Done key ->
  language_key Lang (code ++ "_"%char :: script2) = Done key /\
  load_text_dataset key key src_file trg_file =
  map (fun lines => [(key, strip (snd lines))]) (combine src_file trg_file).
Proof.
  intros Hfree Hkey. split.
  - rewrite language_key_prefix in * by assumption. exact Hkey.
  - unfold load_text_dataset. apply map_ext. intros [s t]. simpl.
    now rewrite str_eqb_refl.
Qed.

(** X15: [postprocess_text] keeps the number of predictions and of labels,
    strips every prediction, turns every label into a list of one
    stripped reference, and processing its own output again changes
    nothing. *)
Theorem postprocess_text_trims (preds labels : list str) :
  let out := postprocess_text preds labels in
  List.length (fst out) = List.length preds /\
  List.length (snd out) = List.length labels /\
  Forall trimmed (fst out) /\
  Forall (fun references => exists l, references = [l] /\ trimmed l) (snd out) /\
  postprocess_text (fst out) (map (fun references => hd [] references) (snd out)) = out.
Proof.
  cbv zeta. unfold postprocess_text. cbn [fst snd].
  assert (Htrim : forall s, trimmed (strip s)).
  { intros s. now destruct (strip_spec s) as (_ & _ & _ & _ & _ & H). }
  assert (Hfix : forall s, strip (strip s) = strip s).
  { intros s. destruct (Htrim s) as [Hfirst Hlast]. unfold strip at 1.
    rewrite (lstrip_fixed (strip s) Hfirst).
    rewrite lstrip_fixed; [apply rev_involutive|].
    intros a rest H. apply (Hlast a (rev rest)).
    rewrite <- (rev_involutive (strip s)), H. reflexivity. }
  repeat split.
  - apply length_map.
  - apply length_map.
  - apply Forall_forall. intros p Hp. apply in_map_iff in Hp as (x & <- & _). apply Htrim.
  - apply Forall_forall. intros r Hr. apply in_map_iff in Hr as (x & <- & _).
    eexists. split; [reflexivity|apply Htrim].
  - f_equal.
    + rewrite map_map. apply map_ext. intros p. apply Hfix.
    + rewrite !map_map. apply map_ext. intros l. cbn [hd]. now rewrite Hfix.
Qed.

End DataArgsFacts.

(** ** Language codes and extra tokens of the tokenizer *)

Section TokenizerFacts.

Import Tokenizers.

Context {V : Type} {T : TokenizerLibrary V}.

Lemma set_item_same {A} (d : str -> option A) (k : str) (v : A) :
  set_item d k v k = Some v.
Proof. unfold set_item. now rewrite str_eqb_refl. Qed.

Lemma set_item_other {A} (d : str -> option A) (k k' : str) (v : A) :
  k' <> k -> set_item d k v k' = d k'.
Proof. intros H. unfold set_item. apply str_eqb_neq in H. now rewrite H. Qed.

Lemma set_item_int_same {A} (d : Z -> option A) (k : Z) (v : A) :
  set_item_int d k v k = Some v.
Proof. unfold set_item_int. now rewrite Z.eqb_refl. Qed.

(** The id a language code has after [add_lang_code_to_tokenizer]. *)
Lemma add_lang_code_lookup (t : tokenizer V) (lang_code : str) :
  lang_code_to_id (add_lang_code_to_tokenizer t lang_code) lang_code =
  match lang_code_to_id t lang_code with
  | Some id => Some id
  | None =>
      Some (convert_tokens_to_ids
              (add_special_tokens
                 (additional_special_tokens (library_state t) ++ [lang_code])
                 (library_state t))
              lang_code)
  end.
Proof.
  unfold add_lang_code_to_tokenizer.
  destruct (lang_code_to_id t lang_code) eqn:E; [exact E|].
  destruct (isinstance (class_of t) [NllbTokenizer; MBart50Tokenizer; MBartTokenizer]);
    [apply set_item_same|].
  destruct (isinstance (class_of t) [M2M100Tokenizer]); apply set_item_same.
Qed.

Lemma add_lang_code_others (t : tokenizer V) (lang_code other : str) :
  other <> lang_code ->
  lang_code_to_id (add_lang_code_to_tokenizer t lang_code) other = lang_code_to_id t other.
Proof.
  intros Hne. unfold add_lang_code_to_tokenizer.
  destruct (lang_code_to_id t lang_code); [reflexivity|].
  destruct (isinstance (class_of t) [NllbTokenizer; MBart50Tokenizer; MBartTokenizer]);
    [now apply set_item_other|].
  destruct (isinstance (class_of t) [M2M100Tokenizer]); now apply set_item_other.
Qed.

Lemma add_lang_code_class (t : tokenizer V) (lang_code : str) :
  class_of (add_lang_code_to_tokenizer t lang_code) = class_of t.
Proof.
  unfold add_lang_code_to_tokenizer.
  destruct (lang_code_to_id t lang_code); [reflexivity|].
  destruct (isinstance (class_of t) [NllbTokenizer; MBart50Tokenizer; MBartTokenizer]);
    [reflexivity|].
  destruct (isinstance (class_of t) [M2M100Tokenizer]); reflexivity.
Qed.

(** X16: adding a language code twice is adding it once; a code the
    tokenizer knows leaves the tokenizer as it is; and the ids of the
    other codes are never changed. *)
Theorem add_lang_code_idempotent (t : tokenizer V) (lang_code : str) :
  add_lang_code_to_tokenizer (add_lang_code_to_tokenizer t lang_code) lang_code =
  add_lang_code_to_tokenizer t lang_code /\
  (forall id, lang_code_to_id t lang_code = Some id ->
     add_lang_code_to_tokenizer t lang_code = t) /\
  (forall other, other <> lang_code ->
     lang_code_to_id (add_lang_code_to_tokenizer t lang_code) other =
     lang_code_to_id t other).
Proof.
  split; [|split].
  - pose proof (add_lang_code_lookup t lang_code) as H.
    unfold add_lang_code_to_tokenizer at 1.
    destruct (lang_code_to_id (add_lang_code_to_tokenizer t lang_code) lang_code);
      [reflexivity|]. now destruct (lang_code_to_id t lang_code).
  - intros id H. unfold add_lang_code_to_tokenizer. now rewrite H.
  - intros other. apply add_lang_code_others.
Qed.

(** X17: after a new language code is added, the code has an id and the
    dictionaries written for the tokenizer's class lead from that id back
    to the code: [id_to_lang_code] and the [fairseq] pair for the slow
    NLLB and mBART tokenizers, [lang_token_to_id] and [id_to_lang_token]
    for M2M100; for the other classes only [lang_code_to_id] is written. *)
Theorem add_lang_code_round_trip (t : tokenizer V) (lang_code : str) :
  lang_code_to_id t lang_code = None ->
  let t' := add_lang_code_to_tokenizer t lang_code in
  exists lang_id,
    lang_code_to_id t' lang_code = Some lang_id /\
    (isinstance (class_of t) [NllbTokenizer; MBart50Tokenizer; MBartTokenizer] = true ->
     id_to_lang_code t' lang_id = Some lang_code /\
     fairseq_tokens_to_ids t' lang_code = Some lang_id /\
     fairseq_ids_to_tokens t' lang_id = Some lang_code) /\
    (class_of t = M2M100Tokenizer ->
     lang_token_to_id t' lang_code = Some lang_id /\
     id_to_lang_token t' lang_id = Some lang_code) /\
    (isinstance (class_of t)
       [MBartTokenizerFast; MBart50TokenizerFast; NllbTokenizerFast; OtherTokenizer] = true ->
     id_to_lang_code t' = id_to_lang_code t /\
     fairseq_tokens_to_ids t' = fairseq_tokens_to_ids t /\
     fairseq_ids_to_tokens t' = fairseq_ids_to_tokens t /\
     lang_token_to_id t' = lang_token_to_id t /\
     id_to_lang_token t' = id_to_lang_token t).
Proof.
  intros Hnew. cbv zeta. unfold add_lang_code_to_tokenizer. rewrite Hnew.
  eexists.
  destruct (class_of t); cbn [isinstance existsb class_eqb orb lang_code_to_id
    id_to_lang_code fairseq_tokens_to_ids fairseq_ids_to_tokens lang_token_to_id
    id_to_lang_token];
    (split; [apply set_item_same|]);
    repeat split; intros; try discriminate;
    first [apply set_item_same | apply set_item_int_same].
Qed.

(** X18: with [add_new_lang_code] and a multilingual tokenizer, the source
    and the target language and every code known before have an id
    afterwards, so forcing any of them as the first generated token does
    not raise [KeyError]. *)
Theorem new_lang_codes_can_be_forced (t : tokenizer V) (source_lang target_lang : str) :
  isinstance (class_of t) MULTILINGUAL_TOKENIZERS = true ->
  let t' := add_new_lang_codes true t source_lang target_lang in
  (exists id, forced_bos_token_id t' (Some source_lang) = DataArgs.Done (Some id)) /\
  (exists id, forced_bos_token_id t' (Some target_lang) = DataArgs.Done (Some id)) /\
  (forall code id, lang_code_to_id t code = Some id ->
     forced_bos_token_id t' (Some code) = DataArgs.Done (Some id)).
Proof.
  intros Hmulti. cbv zeta. unfold add_new_lang_codes. rewrite Hmulti. cbn [andb].
  set (t1 := add_lang_code_to_tokenizer t source_lang).
  assert (Hsrc : exists id, lang_code_to_id t1 source_lang = Some id).
  { unfold t1. rewrite add_lang_code_lookup.
    destruct (lang_code_to_id t source_lang); now eexists. }
  assert (Hkeep : forall (u : tokenizer V) c code id,
             lang_code_to_id u code = Some id ->
             lang_code_to_id (add_lang_code_to_tokenizer u c) code = Some id).
  { intros u c code id H. destruct (Py.str_eqb code c) eqn:E.
    - apply str_eqb_eq in E. subst code. rewrite add_lang_code_lookup. now rewrite H.
    - apply str_eqb_neq in E. now rewrite add_lang_code_others. }
  unfold forced_bos_token_id. split; [|split].
  - destruct Hsrc as [id Hid]. exists id. now rewrite (Hkeep t1 _ _ _ Hid).
  - rewrite add_lang_code_lookup.
    destruct (lang_code_to_id t1 target_lang); now eexists.
  - intros code id H. now rewrite (Hkeep t1 _ _ _ (Hkeep t _ _ _ H)).
Qed.

End TokenizerFacts.

Lemma distinct_in (l : list str) (x : str) : In x (Tokenizers.distinct l) <-> In x l.
Proof.
  induction l as [|a l IH]; simpl; [tauto|].
  destruct (mem a l) eqn:E.
  - rewrite IH. split; [now right|]. intros [->|H]; [now apply mem_in|exact H].
  - simpl. rewrite IH. tauto.
Qed.

Lemma distinct_nodup (l : list str) : NoDup (Tokenizers.distinct l).
Proof.
  induction l as [|a l IH]; simpl; [constructor|].
  destruct (mem a l) eqn:E; [exact IH|].
  constructor; [|exact IH]. rewrite distinct_in. intros H. apply mem_in in H. congruence.
Qed.

(** X19: the extra tokens handed to [add_tokens] are exactly the extra
    tokens that are not in the vocabulary, each once; none when all are
    known. *)
Theorem new_tokens_are_new (extra_tokens vocab : list str) :
  NoDup (Tokenizers.new_tokens extra_tokens vocab) /\
  (forall token, In token (Tokenizers.new_tokens extra_tokens vocab) <->
                 In token extra_tokens /\ ~ In token vocab) /\
  ((forall token, In token extra_tokens -> In token vocab) ->
   Tokenizers.new_tokens extra_tokens vocab = []).
Proof.
  unfold Tokenizers.new_tokens. split; [apply distinct_nodup|].
  assert (Hin : forall token,
             In token (Tokenizers.distinct
                         (filter (fun t => negb (mem t vocab)) extra_tokens)) <->
             In token extra_tokens /\ ~ In token vocab).
  { intros token. rewrite distinct_in, filter_In, negb_true_iff.
    split; intros [H1 H2]; (split; [exact H1|]).
    - intros H. apply mem_in in H. congruence.
    - destruct (mem token vocab) eqn:E; [|reflexivity]. apply mem_in in E. contradiction. }
  split; [exact Hin|]. intros Hall.
  destruct (Tokenizers.distinct (filter (fun t => negb (mem t vocab)) extra_tokens))
    as [|x l] eqn:E; [reflexivity|].
  destruct (proj1 (Hin x)) as [H1 H2]; [now left|].
  exfalso. apply H2, Hall, H1.
Qed.

(** ** Jobs on local and on remote output locations *)

Section JobFacts.

Context {L : Libs} {X : Type} {C : Collaborators X}.

Lemma only_calls_ret {A} (allowed : event -> bool) (a : A) :
  only_calls allowed (@ret X A a).
Proof. intros s. exists []. simpl. now rewrite app_nil_r. Qed.

Lemma only_calls_raise {A} (allowed : event -> bool) (e : exn) :
  only_calls allowed (@raise X A e).
Proof. intros s. exists []. simpl. now rewrite app_nil_r. Qed.

Lemma only_calls_bind {A B} (allowed : event -> bool) (m : M X A) (k : A -> M X B) :
  only_calls allowed m -> (forall a, only_calls allowed (k a)) ->
  only_calls allowed (bind m k).
Proof.
  intros Hm Hk s. unfold bind. destruct (Hm s) as (c1 & H1 & A1).
  destruct (m s) as [s1 [a|e]]; simpl in H1.
  - destruct (Hk a s1) as (c2 & H2 & A2). exists (c1 ++ c2).
    rewrite H2, H1, forallb_app, A1, A2. now rewrite app_assoc.
  - exists c1. simpl. now split.
Qed.

Lemma only_calls_call {A} (allowed : event -> bool) (ev : event)
  (op : world X -> world X * result A) :
  allowed ev = true -> only_calls allowed (call ev op).
Proof.
  intros H s. exists [ev]. unfold call. destruct (op (now s)). simpl. now rewrite H.
Qed.

Lemma only_calls_local {A} (allowed : event -> bool) (op : world X -> world X * result A) :
  only_calls allowed (local op).
Proof.
  intros s. exists []. unfold local. destruct (op (now s)). simpl. now rewrite app_nil_r.
Qed.

Lemma only_calls_observe {A} (allowed : event -> bool) (f : world X -> A) :
  only_calls allowed (observe f).
Proof. intros s. exists []. simpl. now rewrite app_nil_r. Qed.

Lemma only_calls_attempt {A} (allowed : event -> bool) (f : world X -> result A) :
  only_calls allowed (attempt f).
Proof. intros s. exists []. simpl. now rewrite app_nil_r. Qed.

Lemma only_calls_when (allowed : event -> bool) (b : bool) (m : M X unit) :
  only_calls allowed m -> only_calls allowed (when b m).
Proof. intros H. destruct b; [exact H|apply only_calls_ret]. Qed.

Lemma only_calls_for_each {A} (allowed : event -> bool) (l : list A) (body : A -> M X unit) :
  (forall x, only_calls allowed (body x)) -> only_calls allowed (for_each l body).
Proof.
  intros H. induction l as [|x l IH]; simpl; [apply only_calls_ret|].
  apply only_calls_bind; [apply H|intros _; exact IH].
Qed.

Lemma only_calls_delete_checkpoints (allowed : event -> bool) (a : Args) :
  only_calls allowed (@delete_checkpoints X a).
Proof.
  unfold delete_checkpoints. apply only_calls_bind; [apply only_calls_observe|].
  intros l. apply only_calls_for_each. intros x. apply only_calls_local.
Qed.

Lemma only_calls_detect (allowed : event -> bool) (a : Args) :
  only_calls allowed (@detect_last_checkpoint X a).
Proof.
  unfold detect_last_checkpoint. apply only_calls_bind; [apply only_calls_observe|].
  intros b. destruct (b && do_train a && negb (overwrite_output_dir a));
    [|apply only_calls_ret].
  apply only_calls_bind; [apply only_calls_attempt|]. intros [c|]; [apply only_calls_ret|].
  apply only_calls_bind; [apply only_calls_attempt|]. intros names.
  apply only_calls_bind; [apply only_calls_observe|].
  intros [|]; [apply only_calls_raise|apply only_calls_ret].
Qed.

Lemma only_calls_run_job (a : Args) (last_checkpoint : option str) :
  only_calls (fun e => negb (mirror_event e)) (run_job a last_checkpoint).
Proof.
  unfold run_job.
  apply only_calls_bind; [now apply only_calls_call|]. intros _.
  apply only_calls_bind.
  { apply only_calls_when. apply only_calls_bind; [now apply only_calls_call|].
    intros _. apply only_calls_when, only_calls_delete_checkpoints. }
  intros _. apply only_calls_bind; [apply only_calls_when; now apply only_calls_call|].
  intros _. apply only_calls_bind; [apply only_calls_when; now apply only_calls_call|].
  intros _. now apply only_calls_call.
Qed.

(** X20: a job whose output location has direct local access works in
    that directory, creates no temporary directory, and [main] is then
    just the job: the output location is never mirrored -- no
    [download_folder], no listing, no [delete_url] and no [upload_folder]
    is called -- and nothing is done in the [finally] block.  The data
    files that the job setup fetches are another matter: they are part
    of the setup call. *)
Theorem local_job_never_mirrors (a : Args) (s : state X) (d : str) :
  get_direct_access (make_absolute_str (config_url a) (output_dir a)) = Some d ->
  exists ws calls,
    acquire_workspace a s = (s, Ok ws) /\
    temp_dir ws = None /\
    output_dir (training_args ws) = d /\
    main a s =
      (last_checkpoint <- detect_last_checkpoint (training_args ws) ;;
       run_job (training_args ws) last_checkpoint) s /\
    trace (fst (main a s)) = trace s ++ calls /\
    forallb (fun e => negb (mirror_event e)) calls = true.
Proof.
  intros Hlocal.
  assert (Hacq : exists ws, acquire_workspace a s = (s, Ok ws) /\ temp_dir ws = None /\
                            output_dir (training_args ws) = d).
  { unfold acquire_workspace. rewrite Hlocal. unfold bind, ret. eexists.
    split; [reflexivity|]. split; reflexivity. }
  destruct Hacq as (ws & Hacq & Htmp & Hout). exists ws.
  set (body := (last_checkpoint <- detect_last_checkpoint (training_args ws) ;;
                run_job (training_args ws) last_checkpoint)).
  assert (Hmain : main a s = body s).
  { unfold main. unfold bind at 1. rewrite Hacq. unfold try_finally, finalize.
    rewrite Htmp. fold body. unfold ret. now destruct (body s). }
  assert (Hquiet : only_calls (fun e => negb (mirror_event e)) body).
  { apply only_calls_bind; [apply only_calls_detect|]. intros c. apply only_calls_run_job. }
  destruct (Hquiet s) as (calls & Htrace & Hcalls). exists calls.
  rewrite Hmain. repeat split; assumption.
Qed.

Lemma only_calls_remote_prune (ws : Workspace) :
  only_calls prune_event (remote_prune ws).
Proof.
  unfold remote_prune. apply only_calls_bind; [now apply only_calls_call|].
  intros urls. apply only_calls_for_each. intros url. apply only_calls_when.
  unfold delete_url. now apply only_calls_call.
Qed.

(** X21: for a mirrored workspace, when the listing of the remote location
    or one of the remote deletions raises, that error replaces the outcome
    of the job and the run ends in the state in which it was raised:
    after the job only the listing and deletions were called, so the
    workspace is not uploaded and [shutil.rmtree] is not reached. *)
Theorem prune_failure_skips_upload {A} (body : M X A) (ws : Workspace)
  (s s1 s2 : state X) (r : result A) (tmp : str) (e : exn) :
  temp_dir ws = Some tmp ->
  body s = (s1, r) ->
  remote_prune ws s1 = (s2, Err e) ->
  try_finally body (finalize ws) s = (s2, Err e) /\
  exists calls, trace s2 = trace s1 ++ calls /\ forallb prune_event calls = true.
Proof.
  intros Htmp Hbody Hprune. split.
  - rewrite (try_finally_run _ _ _ _ _ Hbody). unfold finalize. rewrite Htmp.
    unfold bind at 1. now rewrite Hprune.
  - pose proof (only_calls_remote_prune ws s1) as H. now rewrite Hprune in H.
Qed.

(** X22: deleting the checkpoints of an output directory that does not
    exist, or is a regular file, does nothing and does not raise.  This
    is said of a path without [..] component, which the model resolves
    as the operating system does. *)
Theorem delete_checkpoints_without_directory (a : Args) (s : state X) :
  output_dir a <> [] ->
  plain_path (output_dir a) = true ->
  isdir (now s) (output_dir a) = false ->
  delete_checkpoints a s = (s, Ok tt).
Proof.
  intros Hne _ Hdir. unfold delete_checkpoints, bind, observe, path_glob_prefix, listdir.
  destruct (output_dir a) as [|c out] eqn:E; [contradiction|].
  unfold isdir in Hdir.
  destruct (stat (now s) (c :: out)) as [[|ch]|]; try discriminate; reflexivity.
Qed.

(** X23: targets that are absolute -- a URL with a scheme or an absolute
    path -- are returned as they are, whatever the configuration location. *)
Theorem make_absolute_keeps_absolute (origin : option str) (x : target) :
  all_absolute x = true -> make_absolute origin x = x.
Proof.
  intros Habs. destruct x as [p|ps]; simpl in Habs.
  - rewrite make_absolute_one. f_equal. unfold make_absolute_str, make_absolute.
    destruct origin as [u|]; [|reflexivity].
    destruct (get_direct_access u); now rewrite Habs.
  - rewrite make_absolute_many. f_equal. rewrite <- (map_id ps) at 2.
    apply map_ext_in. intros q Hq. rewrite forallb_forall in Habs.
    unfold make_absolute_str, make_absolute.
    destruct origin as [u|]; [|reflexivity].
    destruct (get_direct_access u); now rewrite (Habs q Hq).
Qed.

(** X25: against a remote configuration location that contains no slash,
    every target is returned unchanged, a relative path too. *)
Theorem make_absolute_remote_without_slash (u : str) (x : target) :
  get_direct_access u = None ->
  ~ In OsPath.sep u ->
  make_absolute (Some u) x = x.
Proof.
  intros Hremote Hfree. unfold make_absolute. rewrite Hremote.
  destruct (rfind_from_spec OsPath.sep u 0 ltac:(lia)) as [Hnone _].
  unfold Py.rfind. rewrite (Hnone Hfree). change (-1 + 1) with 0.
  change (Py.slice_to u 0) with (@nil ascii).
  destruct x as [p|ps].
  - now destruct (is_absolute p).
  - f_equal. rewrite <- (map_id ps) at 2. apply map_ext. intros q.
    now destruct (is_absolute q).
Qed.

End JobFacts.

(** ** Resolution against a local configuration file *)

Lemma first_occurrence_unique (c : ascii) (a a' b b' : str) :
  ~ In c a -> ~ In c a' -> a ++ c :: b = a' ++ c :: b' -> a = a' /\ b = b'.
Proof.
  revert a'; induction a as [|x a IH]; intros [|y a'] Ha Ha' H; simpl in *.
  - injection H as ->. now split.
  - injection H as <- _. exfalso. apply Ha'. now left.
  - injection H as -> _. exfalso. apply Ha. now left.
  - injection H as -> H.
    destruct (IH a') as [-> ->]; [tauto|tauto|exact H|now split].
Qed.

Lemma last_occurrence_unique (c : ascii) (a a' b b' : str) :
  ~ In c b -> ~ In c b' -> a ++ c :: b = a' ++ c :: b' -> a = a' /\ b = b'.
Proof.
  intros Hb Hb' H. apply (f_equal (@rev ascii)) in H.
  rewrite !rev_app_distr in H. simpl in H. rewrite <- !app_assoc in H. simpl in H.
  destruct (first_occurrence_unique c (rev b) (rev b') (rev a) (rev a')) as [H1 H2].
  - intros Hin. apply Hb. now apply in_rev.
  - intros Hin. apply Hb'. now apply in_rev.
  - exact H.
  - split.
    + now rewrite <- (rev_involutive a), H2, rev_involutive.
    + now rewrite <- (rev_involutive b), H1, rev_involutive.
Qed.

Lemma not_endswith_last (d : str) :
  d <> [] -> Py.endswith d [OsPath.sep] = false ->
  exists front a, d = front ++ [a] /\ Py.char_eqb a OsPath.sep = false.
Proof.
  intros Hne Hend. destruct (exists_last Hne) as (front & a & ->).
  exists front, a. split; [reflexivity|].
  destruct (Py.char_eqb a OsPath.sep) eqn:E; [|reflexivity].
  apply Ascii.eqb_eq in E. subst a.
  assert (H : Py.endswith (front ++ [OsPath.sep]) [OsPath.sep] = true)
    by (apply endswith_spec; now exists front).
  congruence.
Qed.

(** [os.path.dirname] of a file below a directory is the directory. *)
Lemma dirname_of_file (dir file : str) :
  dir <> [] -> Py.endswith dir [OsPath.sep] = false -> ~ In OsPath.sep file ->
  OsPath.dirname (dir ++ OsPath.sep :: file) = dir.
Proof.
  intros Hne Hend Hfile.
  destruct (not_endswith_last dir Hne Hend) as (front & a & Hdir & Ha).
  assert (Hin : In OsPath.sep (dir ++ OsPath.sep :: file))
    by (apply in_or_app; right; now left).
  destruct (slice_to_rfind OsPath.sep _ Hin) as (pre & post & Hs & Hpost & Hslice).
  destruct (last_occurrence_unique _ _ _ _ _ Hfile Hpost Hs) as [<- <-].
  unfold OsPath.dirname. cbv zeta. rewrite Hslice.
  assert (Hhead : negb (Py.str_eqb (dir ++ [OsPath.sep]) []) &&
                  negb (forallb (fun x => Py.char_eqb x OsPath.sep) (dir ++ [OsPath.sep]))
                  = true).
  { apply andb_true_iff. split.
    - apply negb_true_iff, str_eqb_neq. now destruct dir.
    - apply negb_true_iff. rewrite Hdir, !forallb_app. simpl. rewrite Ha.
      now rewrite andb_false_r. }
  rewrite Hhead. unfold OsPath.rstrip_sep.
  rewrite rev_app_distr. simpl.
  rewrite Hdir, rev_app_distr. simpl. rewrite Ha. simpl.
  now rewrite rev_involutive.
Qed.

Section LocalResolution.

Context {L : Libs}.

(** X24: a relative path is resolved against a local configuration file
    [dir/file] to [dir/path]: the directory of the configuration file,
    a slash, and the path. *)
Theorem make_absolute_local (u dir file p : str) :
  get_direct_access u = Some (dir ++ OsPath.sep :: file) ->
  dir <> [] -> Py.endswith dir [OsPath.sep] = false ->
  ~ In OsPath.sep file ->
  is_absolute p = false ->
  make_absolute (Some u) (One p) = One (dir ++ OsPath.sep :: p).
Proof.
  intros Hlocal Hne Hend Hfile Hrel.
  unfold make_absolute. rewrite Hlocal, Hrel, (dirname_of_file dir file Hne Hend Hfile).
  f_equal. unfold is_absolute in Hrel. apply orb_false_iff in Hrel as [_ Habs].
  unfold OsPath.isabs in Habs. unfold OsPath.join. rewrite Habs, Hend.
  now destruct dir.
Qed.

End LocalResolution.

(** ** The further properties at work on samples *)

Section ExtraRuns.

Import DataArgs.

#[local] Existing Instance SampleData.library.

(** X2 on the sample arguments. *)
Lemma post_init_accepts_witness :
  post_init SampleData.data_args = Done SampleData.checked_args /\
  source_lang SampleData.data_args <> None /\
  target_lang SampleData.data_args <> None /\
  exists extension,
    get_extension (Many [lit "train.cyrl.txt"; lit "train.latn.txt"]) = Done extension /\
    In extension valid_extensions.
Proof.
  split; [reflexivity|].
  destruct (post_init_accepts SampleData.data_args SampleData.checked_args eq_refl)
    as (Hs & Ht & _ & Htrain & _).
  split; [exact Hs|]. split; [exact Ht|]. exact (Htrain _ eq_refl).
Defined.

(** X4 on the sample arguments. *)
Lemma post_init_idempotent_witness :
  post_init SampleData.data_args = Done SampleData.checked_args /\
  post_init SampleData.checked_args = Done SampleData.checked_args.
Proof.
  split; [reflexivity|].
  exact (post_init_idempotent SampleData.data_args SampleData.checked_args eq_refl).
Defined.

(** X5 on the sample arguments. *)
Lemma data_extension_bound_witness :
  post_init SampleData.data_args = Done SampleData.checked_args /\
  dataset_name SampleData.data_args = None /\
  exists extension,
    data_extension SampleData.checked_args = Done extension /\
    In extension valid_extensions.
Proof.
  split; [reflexivity|]. split; [reflexivity|].
  exact (proj1 (data_extension_bound SampleData.data_args SampleData.checked_args
                  eq_refl eq_refl) eq_refl).
Defined.

(** X6 on the sample arguments. *)
Lemma generation_length_fallback_witness :
  post_init SampleData.data_args = Done SampleData.checked_args /\
  generation_length None SampleData.checked_args = Some 128.
Proof.
  split; [reflexivity|].
  exact (generation_length_fallback SampleData.data_args SampleData.checked_args None
           eq_refl).
Defined.

(** X9 on two rows of labels padded with [1]. *)
Lemma labels_round_trip_witness :
  Forall (Forall (fun l => l <> -100)) [[5; 9; 1; 1]; [7; 8; 6; 1]] /\
  metric_labels SampleData.data_args 1
    (preprocess_labels SampleData.data_args 1 [[5; 9; 1; 1]; [7; 8; 6; 1]]) =
  [[5; 9; 1; 1]; [7; 8; 6; 1]].
Proof.
  assert (H : Forall (Forall (fun l => l <> -100)) [[5; 9; 1; 1]; [7; 8; 6; 1]])
    by (repeat constructor; discriminate).
  split; [exact H|].
  exact (labels_round_trip SampleData.data_args 1 [[5; 9; 1; 1]; [7; 8; 6; 1]] H).
Defined.

(** X10 on the same labels. *)
Lemma preprocess_labels_masks_padding_witness :
  pad_to_max_length SampleData.data_args = true /\
  ignore_pad_token_for_loss SampleData.data_args = true /\
  1 <> -100 /\
  preprocess_labels SampleData.data_args 1 [[5; 9; 1; 1]; [7; 8; 6; 1]] =
    [[5; 9; -100; -100]; [7; 8; 6; -100]] /\
  Forall (Forall (fun l => l <> 1))
    (preprocess_labels SampleData.data_args 1 [[5; 9; 1; 1]; [7; 8; 6; 1]]).
Proof.
  split; [reflexivity|]. split; [reflexivity|]. split; [discriminate|].
  split; [reflexivity|].
  exact (proj1 (proj2 (preprocess_labels_masks_padding SampleData.data_args 1
                         [[5; 9; 1; 1]; [7; 8; 6; 1]] eq_refl eq_refl
                         ltac:(discriminate)))).
Defined.

(** X12 on [srp_Cyrl]. *)
Lemma language_key_ignores_suffix_witness :
  ~ In "_"%char (lit "srp") /\
  language_key SampleData.Lang (lit "srp_Cyrl") = language_key SampleData.Lang (lit "srp") /\
  language_key SampleData.Lang (lit "srp_Cyrl") = Done (lit "sr").
Proof.
  assert (H : ~ In "_"%char (lit "srp")) by (simpl; intuition discriminate).
  split; [exact H|]. split; [|reflexivity].
  exact (language_key_ignores_suffix SampleData.Lang (lit "srp") (lit "Cyrl") H).
Defined.

(** X14 on Serbian in two scripts. *)
Lemma same_language_loses_source_witness :
  ~ In "_"%char (lit "srp") /\
  language_key SampleData.Lang (lit "srp_Cyrl") = Done (lit "sr") /\
  language_key SampleData.Lang (lit "srp_Latn") = Done (lit "sr") /\
  load_text_dataset (lit "sr") (lit "sr") [lit "zdravo"] [lit "hello"] =
    [[(lit "sr", lit "hello")]].
Proof.
  assert (H : ~ In "_"%char (lit "srp")) by (simpl; intuition discriminate).
  split; [exact H|]. split; [reflexivity|].
  destruct (same_language_loses_source SampleData.Lang (lit "srp") (lit "Cyrl")
              (lit "Latn") (lit "sr") [lit "zdravo"] [lit "hello"] H eq_refl)
    as [Hkey Hdata].
  split; [exact Hkey|exact Hdata].
Defined.

(** X17 on an NLLB tokenizer and a new language code. *)
Lemma add_lang_code_round_trip_witness :
  let t' := Tokenizers.add_lang_code_to_tokenizer SampleData.nllb (lit "srp_Cyrl") in
  Tokenizers.lang_code_to_id SampleData.nllb (lit "srp_Cyrl") = None /\
  Tokenizers.lang_code_to_id t' (lit "srp_Cyrl") = Some 5 /\
  exists lang_id,
    Tokenizers.lang_code_to_id t' (lit "srp_Cyrl") = Some lang_id /\
    Tokenizers.id_to_lang_code t' lang_id = Some (lit "srp_Cyrl").
Proof.
  split; [reflexivity|]. split; [reflexivity|].
  destruct (add_lang_code_round_trip SampleData.nllb (lit "srp_Cyrl") eq_refl)
    as (lang_id & Hid & Hslow & _).
  exists lang_id. split; [exact Hid|]. exact (proj1 (Hslow eq_refl)).
Defined.

(** X18 on the same tokenizer. *)
Lemma new_lang_codes_can_be_forced_witness :
  Tokenizers.isinstance (Tokenizers.class_of SampleData.nllb)
    Tokenizers.MULTILINGUAL_TOKENIZERS = true /\
  Tokenizers.forced_bos_token_id SampleData.nllb (Some (lit "srp_Latn")) =
    Raise (KeyError (lit "srp_Latn")) /\
  exists id,
    Tokenizers.forced_bos_token_id
      (Tokenizers.add_new_lang_codes true SampleData.nllb (lit "srp_Cyrl") (lit "srp_Latn"))
      (Some (lit "srp_Latn")) = Done (Some id).
Proof.
  split; [reflexivity|]. split; [reflexivity|].
  exact (proj1 (proj2 (new_lang_codes_can_be_forced SampleData.nllb
                         (lit "srp_Cyrl") (lit "srp_Latn") eq_refl))).
Defined.

(** X20 on a job whose output directory is the local [/out]. *)
Lemma local_job_never_mirrors_witness :
  let out := @main Sample.libs Sample.remote (Sample.collaborators true true)
               (Sample.job (lit "/out")) Sample.start in
  @get_direct_access Sample.libs
    (@make_absolute_str Sample.libs (config_url (Sample.job (lit "/out"))) (lit "/out")) =
    Some (lit "/out") /\
  snd out = Ok tt /\
  exists calls,
    trace (fst out) = trace Sample.start ++ calls /\
    forallb (fun e => negb (mirror_event e)) calls = true.
Proof.
  cbv zeta. split; [reflexivity|]. split; [reflexivity|].
  destruct (@local_job_never_mirrors Sample.libs Sample.remote
              (Sample.collaborators true true) (Sample.job (lit "/out")) Sample.start
              (lit "/out") eq_refl)
    as (ws & calls & _ & _ & _ & _ & Htrace & Hcalls).
  exists calls. split; [exact Htrace|exact Hcalls].
Defined.

(** X21 on the sample workspace, with remote storage that cannot be
    listed. *)
Lemma prune_failure_skips_upload_witness :
  let C := with_failing_list (Sample.collaborators true true) in
  let s1 := fst (@acquire_workspace Sample.libs Sample.remote C Sample.mirrored_job
                   Sample.start) in
  let out := try_finally (@ret Sample.remote unit tt)
               (@finalize Sample.libs Sample.remote C Sample.workspace) s1 in
  snd out = Err (Raised 3) /\
  trace (fst out) =
    [EDownload (lit "s3://bucket/run1") (lit "/tmp/tmpa1"); EList (lit "s3://bucket/run1")] /\
  isdir (now (fst out)) (lit "/tmp/tmpa1") = true.
Proof.
  intros C s1 out.
  pose (s2 := fst (@remote_prune Sample.libs Sample.remote C Sample.workspace s1)).
  assert (Hprune : @remote_prune Sample.libs Sample.remote C Sample.workspace s1 =
                   (s2, Err (Raised 3))) by (vm_compute; reflexivity).
  destruct (@prune_failure_skips_upload Sample.libs Sample.remote C unit (ret tt)
              Sample.workspace s1 s1 s2 (Ok tt) (lit "/tmp/tmpa1") (Raised 3)
              eq_refl eq_refl Hprune) as [Hrun _].
  unfold out. rewrite Hrun. repeat split; vm_compute; reflexivity.
Defined.

(** X22 on a workspace directory that does not exist. *)
Lemma delete_checkpoints_without_directory_witness :
  output_dir (Sample.job (lit "/missing")) <> [] /\
  plain_path (lit "/missing") = true /\
  isdir (now Sample.start) (lit "/missing") = false /\
  delete_checkpoints (Sample.job (lit "/missing")) Sample.start = (Sample.start, Ok tt).
Proof.
  split; [discriminate|]. split; [reflexivity|]. split; [reflexivity|].
  apply (delete_checkpoints_without_directory (Sample.job (lit "/missing")) Sample.start);
    [discriminate|reflexivity|reflexivity].
Defined.

(** X23 on an absolute path and a URL. *)
Lemma make_absolute_keeps_absolute_witness :
  let x := Many [lit "/srv/data/train.json"; lit "gs://other/dev.json"] in
  @all_absolute Sample.libs x = true /\
  @make_absolute Sample.libs (Some (lit "s3://bucket/config.json")) x = x.
Proof.
  split; [reflexivity|].
  exact (@make_absolute_keeps_absolute Sample.libs (Some (lit "s3://bucket/config.json"))
           (Many [lit "/srv/data/train.json"; lit "gs://other/dev.json"]) eq_refl).
Defined.

(** X24 on the configuration file [/home/user/config.json]. *)
Lemma make_absolute_local_witness :
  @get_direct_access Sample.libs (lit "/home/user/config.json") =
    Some (lit "/home/user" ++ OsPath.sep :: lit "config.json") /\
  @is_absolute Sample.libs (lit "data/train.json") = false /\
  @make_absolute Sample.libs (Some (lit "/home/user/config.json"))
    (One (lit "data/train.json")) =
  One (lit "/home/user/data/train.json").
Proof.
  split; [reflexivity|]. split; [reflexivity|].
  apply (@make_absolute_local Sample.libs (lit "/home/user/config.json")
           (lit "/home/user") (lit "config.json") (lit "data/train.json"));
    first [reflexivity | discriminate | simpl; intuition discriminate].
Defined.

(** X25 on a remote location written without any slash. *)
Lemma make_absolute_remote_without_slash_witness :
  @get_direct_access Sample.libs (lit "s3:config.json") = None /\
  ~ In OsPath.sep (lit "s3:config.json") /\
  @make_absolute Sample.libs (Some (lit "s3:config.json")) (One (lit "data/train.json")) =
  One (lit "data/train.json").
Proof.
  assert (H : ~ In OsPath.sep (lit "s3:config.json")) by (simpl; intuition discriminate).
  split; [reflexivity|]. split; [exact H|].
  exact (@make_absolute_remote_without_slash Sample.libs (lit "s3:config.json")
           (One (lit "data/train.json")) eq_refl H).
Defined.

(** X3 on the sample arguments with a test file, and on arguments that
    name a test file only. *)
Lemma post_init_ignores_test_file_witness :
  let test := Some (One (lit "test.csv")) in
  let d := {| source_lang := Some (lit "srp_Cyrl");
              target_lang := Some (lit "srp_Latn");
              dataset_name := None;
              train_file := None;
              validation_file := None;
              test_file := None;
              max_target_length := Some 128;
              val_max_target_length := None;
              pad_to_max_length := true;
              ignore_pad_token_for_loss := true;
              max_train_samples := None |} in
  post_init (set_test_file SampleData.data_args test) =
    Done (set_test_file SampleData.checked_args test) /\
  post_init (set_test_file d test) =
    Raise (ValueError (lit "Need either a dataset name or a training/validation file.")).
Proof.
  intros test d. split.
  - exact (proj1 (post_init_ignores_test_file SampleData.data_args test)).
  - exact (proj2 (post_init_ignores_test_file d test) eq_refl eq_refl eq_refl).
Defined.

(** X8 on datasets that hold a validation split only. *)
Lemma missing_first_split_is_key_error_witness :
  prepare_datasets true true false [Validation] None (fun _ => None) =
    Raise (KeyError (lit "train")) /\
  prepare_datasets false true true [Validation] None (fun _ => None) =
    Raise (ValueError (lit "--do_predict requires a test dataset")).
Proof.
  split; [|reflexivity].
  exact (proj1 (proj2 (proj2 (proj2
           (missing_first_split_is_key_error true true false [Validation] None
              (fun _ => None))))) eq_refl eq_refl).
Defined.

(** X11 on three rows, with the limits [2] and [-1]. *)
Lemma limit_samples_keeps_prefix_witness :
  let dataset := [lit "a"; lit "b"; lit "c"] in
  limit_samples (Some 2) dataset = Done [lit "a"; lit "b"] /\
  exists kept,
    limit_samples (Some (-1)) dataset = Done kept /\
    kept = [] /\
    reported_samples (Some (-1)) (Z.of_nat (List.length kept)) = -1.
Proof.
  cbv zeta. split; [reflexivity|].
  destruct (limit_samples_keeps_prefix (Some (-1)) [lit "a"; lit "b"; lit "c"])
    as (kept & dropped & Hkept & _ & H).
  cbv zeta in H. destruct H as (_ & _ & Hneg).
  exists kept. split; [exact Hkept|]. apply Hneg. reflexivity.
Defined.

(** X13 on a source file of two lines and a target file of one. *)
Lemma load_text_dataset_pairs_lines_witness :
  let data := load_text_dataset (lit "sr") (lit "en")
                [lit " zdravo" ++ ["010"%char]; lit "svete" ++ ["010"%char]]
                [lit "hello " ++ ["010"%char]] in
  List.length data = 1%nat /\
  exists example,
    nth_error data 0 = Some example /\
    example = [(lit "sr", lit "zdravo"); (lit "en", lit "hello")].
Proof.
  cbv zeta.
  destruct (load_text_dataset_pairs_lines (lit "sr") (lit "en")
              [lit " zdravo" ++ ["010"%char]; lit "svete" ++ ["010"%char]]
              [lit "hello " ++ ["010"%char]]) as [Hlen Hrows].
  split; [exact Hlen|].
  destruct (Hrows 0%nat _ _ eq_refl eq_refl) as (example & Hrow & _ & Hboth & _).
  exists example. split; [exact Hrow|]. apply Hboth. discriminate.
Defined.

(** X16 on the NLLB tokenizer: a known code, and a new one beside it. *)
Lemma add_lang_code_idempotent_witness :
  Tokenizers.add_lang_code_to_tokenizer SampleData.nllb (lit "eng_Latn") = SampleData.nllb /\
  Tokenizers.lang_code_to_id
    (Tokenizers.add_lang_code_to_tokenizer SampleData.nllb (lit "srp_Cyrl"))
    (lit "eng_Latn") = Some 4.
Proof.
  split.
  - exact (proj1 (proj2 (add_lang_code_idempotent SampleData.nllb (lit "eng_Latn")))
             4 eq_refl).
  - exact (proj2 (proj2 (add_lang_code_idempotent SampleData.nllb (lit "srp_Cyrl")))
             (lit "eng_Latn") ltac:(discriminate)).
Defined.

(** X19 on extra tokens of which one is repeated and one is known. *)
Lemma new_tokens_are_new_witness :
  Tokenizers.new_tokens [lit "<a>"; lit "<pad>"; lit "<a>"] [lit "<pad>"; lit "<s>"] =
    [lit "<a>"] /\
  Tokenizers.new_tokens [lit "<pad>"] [lit "<pad>"; lit "<s>"] = [].
Proof.
  split; [reflexivity|].
  apply (proj2 (proj2 (new_tokens_are_new [lit "<pad>"] [lit "<pad>"; lit "<s>"]))).
  intros token [<-|[]]. now left.
Defined.

End ExtraRuns.
